(** * PanStateMachine (pocs/state/machine.py): a shallow embedding

    The Python objects the machine works on (the state table, its transition
    dictionaries and their condition lists) live in an explicit heap, because
    [_load_transition] mutates them in place and the table keeps referring to
    them.  Exceptions are results; the logger, the file system, the YAML
    parser, the module resolver and the [transitions] package are external
    collaborators collected in one environment record. *)

From stdpp Require Import gmap strings list fin_maps.

Open Scope string_scope.

(** ** Python values, objects and exceptions *)

Definition loc := positive.

(** The scalars that occur in a state table are strings and [None]; lists
    and dictionaries are heap objects reached through references. *)
Inductive value :=
| VNone
| VStr (s : string)
| VRef (l : loc).

#[global] Instance value_eq_dec : EqDecision value.
Proof. solve_decision. Defined.

Inductive obj :=
| OList (xs : list value)
| ODict (d : gmap string value).

Abbreviation heap := (gmap loc obj).

Inductive exn :=
| AssertionError
| KeyError (key : string)
| TypeError
| AttributeError (name : string)
| UnboundLocalError (var : string)
| OSError
| ImportError
| YAMLError
| RuntimeError (msg : string)
| InvalidConfig (msg : string) (* error.InvalidConfig *)
| NotFound (msg : string) (* error.NotFound *)
| KeyboardInterrupt
| SystemExit.

#[global] Instance exn_eq_dec : EqDecision exn.
Proof. solve_decision. Defined.

(** [except Exception] catches every class but the ones deriving from
    [BaseException] only.  The two classes of the [error] module are
    ordinary exceptions. *)
Definition is_Exception (e : exn) : bool :=
  match e with
  | KeyboardInterrupt | SystemExit => false
  | _ => true
  end.

(** ** The logger

    A log line is kept as its level, its format string and the arguments
    that are formatted into it. *)
Inductive level := DEBUG | INFO | WARNING.

Inductive logarg :=
| AVal (v : value)
| AText (s : string)
| AModule (attributes : gmap string string)
| AExc (e : exn).

Record log_entry := Log { lvl : level; fmt : string; args : list logarg }.

(** ** State and error monad *)

Inductive res (S A : Type) :=
| Ok (a : A) (s : S)
| Raise (e : exn) (s : S).
Arguments Ok {S A} a s.
Arguments Raise {S A} e s.

Definition M (S A : Type) := S → res S A.

Definition ret {S A} (a : A) : M S A := fun s => Ok a s.

Definition bind {S A B} (m : M S A) (k : A → M S B) : M S B :=
  fun s => match m s with
           | Ok a s' => k a s'
           | Raise e s' => Raise e s'
           end.

Definition raise {S A} (e : exn) : M S A := fun s => Raise e s.
Definition get {S} : M S S := fun s => Ok s s.
Definition modify {S} (f : S → S) : M S unit := fun s => Ok tt (f s).

(** [try: body / except Exception as e: handler e] *)
Definition try_except {S A} (body : M S A) (handler : exn → M S A) : M S A :=
  fun s => match body s with
           | Ok a s' => Ok a s'
           | Raise e s' => if is_Exception e then handler e s' else Raise e s'
           end.

Notation "'let*' x ':=' m 'in' k" := (bind m (fun x => k))
  (at level 10, x pattern, m at level 100, k at level 200).
Notation "m '>>' k" := (bind m (fun _ => k))
  (at level 90, right associativity).

(** ** The world of the machine object

    [w_heap] holds the lists and dictionaries, [w_attrs] the attribute
    namespace of [self] (methods, event triggers installed by the
    [transitions] package, attributes added with [setattr]), [w_log] what
    was sent to [self.logger], oldest first. *)
Definition callable := string.

Record world := World {
  w_heap : gmap loc obj;
  w_attrs : gmap string callable;
  w_log : list log_entry
}.

Definition set_heap (h : gmap loc obj) (w : world) : world :=
  World h (w_attrs w) (w_log w).
Definition set_attr (k : string) (c : callable) (w : world) : world :=
  World (w_heap w) (<[k := c]> (w_attrs w)) (w_log w).
Definition log_to (e : log_entry) (w : world) : world :=
  World (w_heap w) (w_attrs w) (w_log w ++ [e]).

Definition logger (l : level) (f : string) (a : list logarg) : M world unit :=
  modify (log_to (Log l f a)).

(** A list display [[]] / a new object: the first unused location. *)
Definition alloc (o : obj) : M world loc :=
  fun w => let l := fresh (dom (w_heap w)) in
           Ok l (set_heap (<[l := o]> (w_heap w)) w).

(** [d.get(key, [])]: the default list is a new object of every call; it
    is allocated here only when it is used, the unused one being garbage. *)
Definition get_or_new_list (d : value) (key : string) : M world value :=
  let* w := get in
  match d with
  | VRef l =>
      match w_heap w !! l with
      | Some (ODict m) =>
          match m !! key with
          | Some v => ret v
          | None => let* n := alloc (OList []) in ret (VRef n)
          end
      | _ => raise (AttributeError "get")
      end
  | _ => raise (AttributeError "get")
  end.

(** [lst.insert(0, x)] *)
Definition list_insert0 (lst : value) (x : value) : M world unit :=
  let* w := get in
  match lst with
  | VRef l =>
      match w_heap w !! l with
      | Some (OList xs) => modify (set_heap (<[l := OList (x :: xs)]> (w_heap w)))
      | _ => raise (AttributeError "insert")
      end
  | _ => raise (AttributeError "insert")
  end.

(** [d[key] = x] *)
Definition setitem (d : value) (key : string) (x : value) : M world unit :=
  let* w := get in
  match d with
  | VRef l =>
      match w_heap w !! l with
      | Some (ODict m) => modify (set_heap (<[l := ODict (<[key := x]> m)]> (w_heap w)))
      | Some (OList _) => raise TypeError
      | None => raise TypeError
      end
  | _ => raise TypeError
  end.


(** [d[key]] *)
Definition getitem (d : value) (key : string) : M world value :=
  let* w := get in
  match d with
  | VRef l =>
      match w_heap w !! l with
      | Some (ODict m) =>
          match m !! key with
          | Some v => ret v
          | None => raise (KeyError key)
          end
      | _ => raise TypeError
      end
  | _ => raise TypeError
  end.

(** [d.get(key, default)] for a default that is not a new object *)
Definition dict_get (d : value) (key : string) (dflt : value) : M world value :=
  let* w := get in
  match d with
  | VRef l =>
      match w_heap w !! l with
      | Some (ODict m) => ret (default dflt (m !! key))
      | _ => raise (AttributeError "get")
      end
  | _ => raise (AttributeError "get")
  end.

Fixpoint chars (s : string) : list value :=
  match s with
  | EmptyString => []
  | String a s' => VStr (String a EmptyString) :: chars s'
  end.

(** What a [for] loop over the value visits.  A dictionary yields its keys;
    their order is the map's, not Python's insertion order. *)
Definition py_iter (v : value) : M world (list value) :=
  let* w := get in
  match v with
  | VNone => raise TypeError
  | VStr s => ret (chars s)
  | VRef l =>
      match w_heap w !! l with
      | Some (OList xs) => ret xs
      | Some (ODict m) => ret (VStr <$> (map_to_list m).*1)
      | None => raise TypeError
      end
  end.

(** [key in v] *)
Definition contains (key : string) (v : value) : M world bool :=
  let* w := get in
  match v with
  | VNone => raise TypeError
  | VStr s => ret (bool_decide (is_Some (String.index 0 key s)))
  | VRef l =>
      match w_heap w !! l with
      | Some (OList xs) => ret (bool_decide (VStr key ∈ xs))
      | Some (ODict m) => ret (bool_decide (is_Some (m !! key)))
      | None => raise TypeError
      end
  end.

(** Truth value of an object in a condition. *)
Definition truthy (v : value) : M world bool :=
  let* w := get in
  match v with
  | VNone => ret false
  | VStr s => ret (negb (String.eqb s ""))
  | VRef l =>
      match w_heap w !! l with
      | Some (OList xs) => ret (negb (bool_decide (xs = [])))
      | Some (ODict m) => ret (negb (bool_decide (m = ∅)))
      | None => ret true
      end
  end.

(** [v == s] for a string [s], and [v == n] for [n] a string or [None] *)
Definition py_eq_str (v : value) (s : string) : bool :=
  match v with
  | VStr s' => String.eqb s' s
  | _ => false
  end.

Definition py_eq_name (v : value) (n : option string) : bool :=
  match v, n with
  | VStr s', Some s => String.eqb s' s
  | VNone, None => true
  | _, _ => false
  end.

Definition tab : string := String (Ascii.ascii_of_nat 9) EmptyString.

(** ** The machine object and its collaborators *)

(** [self.state] belongs to the [transitions] package; the three underscore
    attributes and the table name are set by [__init__]. *)
Record machine := Machine {
  state : string;
  _next_state : option string;
  _is_running : bool;
  _state_machine_table : value;
  _state_table_name : value;
  m_world : world
}.

Definition set_world (w : world) (m : machine) : machine :=
  Machine (state m) (_next_state m) (_is_running m)
          (_state_machine_table m) (_state_table_name m) w.

(** Run a computation on the world inside the machine. *)
Definition lift {A} (c : M world A) : M machine A :=
  fun m => match c (m_world m) with
           | Ok a w => Ok a (set_world w m)
           | Raise e w => Raise e (set_world w m)
           end.

(** What [transitions.EventData] carries for the callbacks of this file. *)
Record EventData := { event_name : string; event_state_name : string }.

(** [transitions.State]: a name and the callbacks registered for entering. *)
Record State := { name : value; on_enter : list string }.

(** [State.add_callback('enter', func)] appends. *)
Definition add_callback (func : string) (s : State) : State :=
  {| name := name s; on_enter := on_enter s ++ [func] |}.

(** A module object: its attributes. *)
Abbreviation pymodule := (gmap string callable).

(** Code that machine.py calls and that is not part of it. *)
Record Env := {
  (** [pocs.utils.listify], called on a value: the list object it returns
      and the heap afterwards *)
  listify : value → gmap loc obj → loc * gmap loc obj;
  (** [astropy.utils.resolve_name] *)
  resolve_name : string → exn + pymodule;
  (** [str()] of a list or dictionary *)
  py_repr : gmap loc obj → loc → string;
  (** [os.getenv] *)
  getenv : string → option string;
  (** [open(path, 'r')] followed by [f.read()] *)
  read_file : string → exn + string;
  (** [yaml.load]: the parsed value, built in the heap *)
  yaml_load : string → gmap loc obj → exn + (value * gmap loc obj);
  (** [PanMongo()]: the handle of the database connection *)
  PanMongo : M world callable;
  (** [GraphMachine.__init__] with the keyword arguments of line 43: the
      initial state, the triggers being installed as attributes *)
  Machine_init : list (option State) → list value → value → M world string;
  (** calling an attribute of [self], without argument or with the event *)
  call : callable → option EventData → M machine unit;
  (** [os.path.exists], [model.graph.draw], [os.remove], [os.symlink] *)
  path_exists : string → M machine bool;
  graph_draw : string → M machine unit;
  os_remove : string → M machine unit;
  os_symlink : string → string → M machine unit
}.

(** The elements [listify] is expected to list: those of a list, nothing
    for [None], the object itself otherwise. *)
Definition listed (h : gmap loc obj) (v : value) : list value :=
  match v with
  | VNone => []
  | VStr _ => [v]
  | VRef l => match h !! l with
              | Some (OList xs) => xs
              | _ => [v]
              end
  end.

(** The contract assumed of [listify], whose source is not at hand: the
    list it returns holds [listed], and it is either the argument itself,
    the heap being untouched, or a new object. *)
Definition listify_contract (E : Env) : Prop :=
  ∀ v h, match listify E v h with
         | (l, h') =>
             (v = VRef l ∧ h' = h ∧ h !! l = Some (OList (listed h v)))
             ∨ (h !! l = None ∧ h' = <[l := OList (listed h v)]> h)
         end.

Section machine.
Context (E : Env).

Definition call_listify (v : value) : M world value :=
  fun w => match listify E v (w_heap w) with
           | (l, h') => Ok (VRef l) (set_heap h' w)
           end.

(** lines 238-248 *)
Definition _load_transition (transition : value) : M world value :=
  logger DEBUG "Loading transition: {}" [AVal transition] >>
  let* c := get_or_new_list transition "conditions" in
  let* conditions := call_listify c in
  list_insert0 conditions (VStr "check_safety") >>
  setitem transition "conditions" conditions >>
  logger DEBUG "Returning transition: {}" [AVal transition] >>
  ret transition.

(** A list comprehension [[f(x) for x in xs]] over the elements [xs]. *)
Fixpoint comprehension {S A B} (f : A → M S B) (xs : list A) : M S (list B) :=
  match xs with
  | [] => ret []
  | x :: xs' =>
      let* y := f x in
      let* ys := comprehension f xs' in
      ret (y :: ys)
  end.

(** *** Attributes of [self] *)

(** [hasattr(self, name)]: a name that is not a string is a [TypeError]. *)
Definition hasattr (attr_name : value) : M world bool :=
  let* w := get in
  match attr_name with
  | VStr s => ret (bool_decide (is_Some (w_attrs w !! s)))
  | _ => raise TypeError
  end.

Definition getattr (attr_name : value) : M world callable :=
  let* w := get in
  match attr_name with
  | VStr s =>
      match w_attrs w !! s with
      | Some c => ret c
      | None => raise (AttributeError s)
      end
  | _ => raise TypeError
  end.

Definition setattr (attr_name : string) (c : callable) : M world unit :=
  modify (set_attr attr_name c).

(** [str(v)] as [format] inserts it *)
Definition py_str (h : gmap loc obj) (v : value) : string :=
  match v with
  | VNone => "None"
  | VStr s => s
  | VRef l => py_repr E h l
  end.

(** *** Properties (lines 63-74) *)

Definition is_running : M machine bool := fun m => Ok (_is_running m) m.
Definition next_state : M machine (option string) := fun m => Ok (_next_state m) m.
Definition set_next_state (v : option string) : M machine unit :=
  modify (fun m => Machine (state m) v (_is_running m)
                           (_state_machine_table m) (_state_table_name m) (m_world m)).
Definition set_is_running (b : bool) : M machine unit :=
  modify (fun m => Machine (state m) (_next_state m) b
                           (_state_machine_table m) (_state_table_name m) (m_world m)).

(** *** [_lookup_trigger] (lines 179-186) *)

Definition name_arg (n : option string) : logarg :=
  match n with
  | Some s => AVal (VStr s)
  | None => AVal VNone
  end.

(** The [for] loop over the elements of the transition list. *)
Fixpoint scan_transitions (infos : list value) : M machine value :=
  match infos with
  | [] => ret (VStr "parking")
  | state_info :: rest =>
      let* self := get in
      let* src := lift (getitem state_info "source") in
      if py_eq_str src (state self) then
        let* dst := lift (getitem state_info "dest") in
        if py_eq_name dst (_next_state self) then
          lift (getitem state_info "trigger")
        else scan_transitions rest
      else scan_transitions rest
  end.

Definition _lookup_trigger : M machine value :=
  let* self := get in
  lift (logger DEBUG ("Source: {}" ++ tab ++ " Dest: {}")
               [AText (state self); name_arg (_next_state self)]) >>
  let* ts := lift (getitem (_state_machine_table self) "transitions") in
  let* infos := lift (py_iter ts) in
  scan_transitions infos.

(** *** [stop_machine] and [run] (lines 80-111) *)

Definition stop_machine : M machine unit := set_is_running false.

(** Lines 94-101: the callable bound to [caller]. *)
Definition resolve_caller : M machine callable :=
  let* call_method := _lookup_trigger in
  lift (logger INFO "{}" [AVal call_method]) >>
  let* t := lift (truthy call_method) in
  let* b := (if t then lift (hasattr call_method) else ret false) in
  if b then lift (getattr call_method)
  else lift (logger WARNING "No valid state given, parking" []) >>
       lift (getattr (VStr "park")).

(** One pass through the body of the [while] loop. *)
Definition run_body : M machine unit :=
  let* caller := resolve_caller in
  try_except (call E caller None)
    (fun e => lift (logger WARNING "Problem calling next state: {}" [AExc e]) >>
              stop_machine).

(** [while self.is_running: body].  The loop need not end: [fuel] bounds
    the number of passes, [None] meaning that they were used up. *)
Fixpoint while_running (fuel : nat) (m : machine) : option (res machine unit) :=
  if _is_running m then
    match fuel with
    | O => None
    | S n =>
        match run_body m with
        | Ok _ m' => while_running n m'
        | Raise e m' => Some (Raise e m')
        end
    end
  else Some (Ok tt m).

Definition run (fuel : nat) (m : machine) : option (res machine unit) :=
  match (set_is_running true >> set_next_state (Some "ready")) m with
  | Ok _ m' => while_running fuel m'
  | Raise e m' => Some (Raise e m')
  end.

(** *** Callbacks (lines 117-139, 188-211) *)

Definition before_state (event_data : EventData) : M machine unit :=
  lift (logger DEBUG "Before calling {} from {} state"
               [AText (event_name event_data); AText (event_state_name event_data)]).

Definition after_state (event_data : EventData) : M machine unit :=
  lift (logger DEBUG "After calling {}. Now in {} state"
               [AText (event_name event_data); AText (event_state_name event_data)]).

(** Lines 192-205, the body of the [try] statement. *)
Definition draw_and_link (event_data : EventData) : M machine unit :=
  let state_id := "state_" ++ event_name event_data ++ "_"
                  ++ event_state_name event_data in
  let image_dir := default "/var/panoptes/" (getenv E "PANDIR") in
  let fn := image_dir ++ "/images/state_images/" ++ state_id ++ ".svg" in
  let ln_fn := image_dir ++ "/images/state.svg" in
  let* made := path_exists E fn in
  (if made then ret tt else graph_draw E fn) >>
  let* linked := path_exists E ln_fn in
  (if linked then os_remove E ln_fn else ret tt) >>
  os_symlink E fn ln_fn.

Definition _update_graph (event_data : EventData) : M machine unit :=
  try_except (draw_and_link event_data)
    (fun e => lift (logger WARNING "Can't generate state graph: {}" [AExc e])).

Definition _update_status (event_data : EventData) : M machine unit :=
  let* status := lift (getattr (VStr "status")) in
  call E status None.

(** *** [load_state_table] (lines 146-173) *)

Definition load_state_table (state_table_name : string) : M world value :=
  let state_table_file :=
    default "/var/panoptes/POCS" (getenv E "POCS")
    ++ "/resources/state_table/" ++ state_table_name ++ ".yaml" in
  match read_file E state_table_file with
  | inl e =>
      if bool_decide (e = OSError)
      then raise (InvalidConfig "Problem loading state table yaml file: {} {}")
      else raise (InvalidConfig "Problem loading state table yaml file: {}")
  | inr text =>
      fun w =>
        match yaml_load E text (w_heap w) with
        | inl e => Raise (InvalidConfig "Problem loading state table yaml file: {}") w
        | inr (state_table, h) => Ok state_table (set_heap h w)
        end
  end.

(** *** [load_module] (panoptes/utils/modules.py) *)

Definition load_module {S} (module_name : string) : M S pymodule :=
  match resolve_name E module_name with
  | inr module => ret module
  | inl e =>
      if bool_decide (e = ImportError) then raise (NotFound module_name)
      else raise e
  end.

(** ['pocs.state.states.{}.{}'.format(self._state_table_name, state)] *)
Definition state_module_name (h : gmap loc obj) (table_name state : value) : string :=
  "pocs.state.states." ++ py_str h table_name ++ "." ++ py_str h state.

(** *** [_load_state] (lines 213-236)

    The local [s] is assigned inside the [try] block, after [load_module];
    no statement after that assignment raises.  So the block either ends
    with [s] bound, or is left by [load_module] with [s] unbound: the
    value computed below is the binding of [s] at the [return]. *)
Definition _load_state (table_name : value) (state : value)
  : M world (option State) :=
  logger DEBUG "Loading state: {}" [AVal state] >>
  let* w := get in
  let state_str := py_str (w_heap w) state in
  let* s :=
    try_except
      (let* state_module :=
         load_module (state_module_name (w_heap w) table_name state) in
       logger DEBUG "Checking {}" [AModule state_module] >>
       match state_module !! "on_enter" with
       | Some on_enter_method =>
           setattr ("on_enter_" ++ state_str) on_enter_method >>
           logger DEBUG "Added `on_enter` method from {} {}"
                  [AModule state_module; AText on_enter_method] >>
           logger DEBUG "Created state" [] >>
           ret (Some (Some
             (add_callback ("on_enter_" ++ state_str)
               (add_callback "_update_status"
                 (add_callback "_update_graph"
                   {| name := state; on_enter := [] |})))))
       | None => ret (Some None)
       end)
      (fun e =>
         logger WARNING ("Can't load state modules: {}" ++ tab ++ "{}")
                [AVal state; AExc e] >>
         ret None) in
  match s with
  | Some v => ret v
  | None => raise (UnboundLocalError "s")
  end.

(** *** [__init__] (lines 24-57) *)

Definition assert_ (cond : bool) (msg : M world unit) : M world unit :=
  if cond then ret tt else msg >> raise AssertionError.

(** lines 29-30 *)
Definition required_keys (state_machine_table : value) : M world unit :=
  let* has_states := contains "states" state_machine_table in
  assert_ has_states (logger WARNING "states keyword required." []) >>
  let* has_transitions := contains "transitions" state_machine_table in
  assert_ has_transitions (logger WARNING "transitions keyword required." []).

(** lines 25-27 *)
Definition given_table (state_machine_table : value) : M world value :=
  match state_machine_table with
  | VStr table_name =>
      logger INFO "Loading state table: {}" [AVal state_machine_table] >>
      load_state_table table_name
  | _ => ret state_machine_table
  end.

Definition __init__ (state_machine_table : value) : M world machine :=
  let* state_machine_table := given_table state_machine_table in
  required_keys state_machine_table >>
  let* has_db := hasattr (VStr "db") in
  (if has_db then ret tt else let* db := PanMongo E in setattr "db" db) >>
  let* table_name := dict_get state_machine_table "name" (VStr "default") in
  let* raw := getitem state_machine_table "transitions" in
  let* raw_transitions := py_iter raw in
  let* _transitions := comprehension _load_transition raw_transitions in
  let* names := get_or_new_list state_machine_table "states" in
  let* state_names := py_iter names in
  let* states := comprehension (_load_state table_name) state_names in
  let* initial := dict_get state_machine_table "initial" VNone in
  let* initial_state := Machine_init E states _transitions initial in
  logger DEBUG "State machine created" [] >>
  let* w := get in
  ret (Machine initial_state None false state_machine_table table_name w).

(** *** Entering a state ([transitions.State.enter])

    The callbacks registered for 'enter' are looked up by name on the
    machine and called with the event, one after the other in the order
    they were added; an exception leaves the loop. *)
Definition call_attribute (func : string) (event_data : EventData) : M machine unit :=
  let* f := lift (getattr (VStr func)) in
  call E f (Some event_data).

Definition callback (func : string) (event_data : EventData) : M machine unit :=
  if String.eqb func "_update_graph" then _update_graph event_data
  else if String.eqb func "_update_status" then _update_status event_data
  else call_attribute func event_data.

Fixpoint callbacks (funcs : list string) (event_data : EventData) : M machine unit :=
  match funcs with
  | [] => ret tt
  | f :: rest => callback f event_data >> callbacks rest event_data
  end.

Definition enter (s : State) (event_data : EventData) : M machine unit :=
  callbacks (on_enter s) event_data.

End machine.

(** * Vocabulary of the properties *)

(** The conditions a transition dictionary lists before it is loaded. *)
Definition listed_conditions (h : gmap loc obj) (d : gmap string value) : list value :=
  match d !! "conditions" with
  | Some v => listed h v
  | None => []
  end.

Definition check_safety : value := VStr "check_safety".

(** [[self._load_transition(t) for t in ...]] of line 39 *)
Definition load_transitions (E : Env) : list value → M world (list value) :=
  comprehension (_load_transition E).

(** The condition list a transition dictionary refers to. *)
Definition condition_list (h : gmap loc obj) (t : loc) : option loc :=
  match h !! t with
  | Some (ODict d) =>
      match d !! "conditions" with
      | Some (VRef a) =>
          match h !! a with
          | Some (OList _) => Some a
          | _ => None
          end
      | _ => None
      end
  | _ => None
  end.

(** A well-formed list of transitions: dictionaries, each one its own
    object, and a reference under 'conditions' leads to an object of the
    heap. *)
Record tidy (h : gmap loc obj) (ts : list loc) : Prop := {
  tidy_distinct : NoDup ts;
  tidy_dicts : ∀ t, t ∈ ts →
    ∃ d, h !! t = Some (ODict d)
         ∧ ∀ a, d !! "conditions" = Some (VRef a) → is_Some (h !! a)
}.

(** The list at [l] starts with 'check_safety'. *)
Definition safety_first (h : gmap loc obj) (l : loc) : Prop :=
  ∃ xs, h !! l = Some (OList (check_safety :: xs)).

(** What loading has done to the transition at [t], between [h] and [h']:
    its list is the one it had or a new object. *)
Definition loaded (h h' : gmap loc obj) (t : loc) : Prop :=
  ∃ d l,
    h !! t = Some (ODict d)
    ∧ h' !! t = Some (ODict (<["conditions" := VRef l]> d))
    ∧ safety_first h' l
    ∧ (condition_list h t = Some l ∨ h !! l = None).

Definition m_heap (m : machine) : gmap loc obj := w_heap (m_world m).

(** The elements of [self._state_machine_table['transitions']]. *)
Definition table_transitions (m : machine) : option (list value) :=
  match _state_machine_table m with
  | VRef tb =>
      match m_heap m !! tb with
      | Some (ODict table) =>
          match table !! "transitions" with
          | Some (VRef tl) =>
              match m_heap m !! tl with
              | Some (OList infos) => Some infos
              | _ => None
              end
          | _ => None
          end
      | _ => None
      end
  | _ => None
  end.

Definition entry (h : gmap loc obj) (info : value) (key : string) : option value :=
  match info with
  | VRef t =>
      match h !! t with
      | Some (ODict d) => d !! key
      | _ => None
      end
  | _ => None
  end.

(** A transition that declares both of its end points. *)
Definition has_endpoints (h : gmap loc obj) (info : value) : Prop :=
  is_Some (entry h info "source") ∧ is_Some (entry h info "dest").

(** The transition goes from [src] to [dst]. *)
Definition matching (h : gmap loc obj) (src : string) (dst : option string)
    (info : value) : bool :=
  match entry h info "source", entry h info "dest" with
  | Some s, Some v => py_eq_str s src && py_eq_name v dst
  | _, _ => false
  end.

(** The line [_lookup_trigger] sends to the logger. *)
Definition lookup_line (m : machine) : log_entry :=
  Log DEBUG ("Source: {}" ++ tab ++ " Dest: {}")
      [AText (state m); name_arg (_next_state m)].

Definition logged (e : log_entry) (m : machine) : machine :=
  set_world (log_to e (m_world m)) m.

(** The machine with its running flag cleared. *)
Definition stopped (m : machine) : machine :=
  Machine (state m) (_next_state m) false
          (_state_machine_table m) (_state_table_name m) (m_world m).

(** The warning of line 106. *)
Definition fault_line (e : exn) : log_entry :=
  Log WARNING "Problem calling next state: {}" [AExc e].

(** Computations that leave the five attributes of the machine alone. *)
Definition same_fields (m m' : machine) : Prop :=
  state m' = state m
  ∧ _next_state m' = _next_state m
  ∧ _is_running m' = _is_running m
  ∧ _state_machine_table m' = _state_machine_table m
  ∧ _state_table_name m' = _state_table_name m.

Definition keeps_fields {A} (c : M machine A) : Prop :=
  ∀ m, match c m with
       | Ok _ m' => same_fields m m'
       | Raise _ m' => same_fields m m'
       end.

(** C2, as it is worded: the current state after the fault is the one
    before the failed call. *)
Definition fault_leaves_state_unchanged : Prop :=
  ∀ (E : Env) (n : nat) (m m1 m2 : machine) (c : callable) (e : exn),
    _is_running m = true →
    resolve_caller m = Ok c m1 →
    call E c None m1 = Raise e m2 →
    is_Exception e = true →
    ∃ m3,
      while_running E (S n) m = Some (Ok tt m3)
      ∧ _is_running m3 = false
      ∧ state m3 = state m.

(** The table is a dictionary in which a required key is missing. *)
Definition lacks_key (h : gmap loc obj) (table : value) : Prop :=
  ∃ tb d, table = VRef tb ∧ h !! tb = Some (ODict d)
          ∧ (d !! "states" = None ∨ d !! "transitions" = None).

(** What the loader does with the table called [table_name]. *)
Definition loading (E : Env) (table_name : string) (w : world) : res world value :=
  load_state_table E table_name
    (log_to (Log INFO "Loading state table: {}" [AVal (VStr table_name)]) w).

(** The file [load_state_table] opens (lines 158-159). *)
Definition state_table_file (E : Env) (state_table_name : string) : string :=
  default "/var/panoptes/POCS" (getenv E "POCS")
  ++ "/resources/state_table/" ++ state_table_name ++ ".yaml".

(** What opening and reading that file, then parsing its text, give: the
    exception of the step that failed, or the table and the heap it was
    built in. *)
Definition read_and_parse (E : Env) (table_name : string) (h : gmap loc obj)
  : exn + (value * gmap loc obj) :=
  match read_file E (state_table_file E table_name) with
  | inl e => inl e
  | inr text => yaml_load E text h
  end.

(** The table cannot be used: the file cannot be read, or its text cannot
    be parsed, or it parses to a dictionary without 'states' or without
    'transitions'. *)
Definition unusable (E : Env) (table_name : string) (w : world) : Prop :=
  match read_and_parse E table_name (w_heap w) with
  | inl _ => True
  | inr (table, h) => lacks_key h table
  end.

(** C5, as it is worded: a missing key makes construction fail with a
    ConfigError. *)
Definition missing_key_is_ConfigError : Prop :=
  ∀ (E : Env) (table_name : string) (w : world),
    (∃ table w1, loading E table_name w = Ok table w1
                 ∧ lacks_key (w_heap w1) table) →
    ∃ msg w', __init__ E (VStr table_name) w = Raise (InvalidConfig msg) w'.

(** The state [_load_state] builds for [state]. *)
Definition built_state (E : Env) (h : gmap loc obj) (state : value) : State :=
  {| name := state;
     on_enter := ["_update_graph"; "_update_status";
                  "on_enter_" ++ py_str E h state] |}.

Definition loading_line (state : value) : log_entry :=
  Log DEBUG "Loading state: {}" [AVal state].

(** C6, as it is worded: a state whose module or [on_enter] is not found
    is built all the same. *)
Definition unresolved_state_is_built : Prop :=
  ∀ (E : Env) (table_name state : value) (w : world),
    match resolve_name E (state_module_name E (w_heap w) table_name state) with
    | inl _ => True
    | inr module => module !! "on_enter" = None
    end →
    ∃ s w', _load_state E table_name state w = Ok (Some s) w'.

Definition graph_line (e : exn) : log_entry :=
  Log WARNING "Can't generate state graph: {}" [AExc e].

(** C7, as it is worded for the second callback: when the status hook
    fails, the third callback is run all the same, so that entering the
    state ends as the third callback does. *)
Definition status_failure_is_contained : Prop :=
  ∀ (E : Env) (s : State) (ev : EventData) (m m0 m1 : machine) (e : exn)
    (custom : string),
    on_enter s = ["_update_graph"; "_update_status"; custom] →
    _update_graph E ev m = Ok tt m0 →
    _update_status E ev m0 = Raise e m1 →
    is_Exception e = true →
    ∃ m2, enter E s ev m = call_attribute E custom ev m2.

(** * Sample collaborators, tables and machines *)

(** One [listify] that meets the contract, with which the theorems are
    instantiated: a list is handed back as it is, [None] gives an empty
    list, anything else is wrapped in a new list. *)
Definition listify_same (v : value) (h : gmap loc obj) : loc * gmap loc obj :=
  let n := fresh (dom h) in
  match v with
  | VNone => (n, <[n := OList []]> h)
  | VStr _ => (n, <[n := OList [v]]> h)
  | VRef l =>
      match h !! l with
      | Some (OList _) => (l, h)
      | _ => (n, <[n := OList [v]]> h)
      end
  end.

(** The other collaborators, as plain as can be; [behaviour], [modules],
    [files] and [parse] are chosen by each example. *)
Definition sample_env
    (behaviour : callable → option EventData → M machine unit)
    (modules : string → exn + pymodule)
    (files : string → exn + string)
    (parse : string → gmap loc obj → exn + (value * gmap loc obj)) : Env := {|
  listify := listify_same;
  resolve_name := modules;
  py_repr := fun _ _ => "<object>";
  getenv := fun _ => None;
  read_file := files;
  yaml_load := parse;
  PanMongo := ret "PanMongo";
  Machine_init := fun _ _ initial =>
    match initial with
    | VStr s => ret s
    | _ => raise (RuntimeError "no initial state")
    end;
  call := behaviour;
  path_exists := fun _ => ret false;
  graph_draw := fun _ => ret tt;
  os_remove := fun _ => ret tt;
  os_symlink := fun _ _ => ret tt
|}.

Definition no_behaviour : callable → option EventData → M machine unit :=
  fun _ _ => ret tt.
Definition no_modules : string → exn + pymodule := fun _ => inl ImportError.
Definition no_files : string → exn + string := fun _ => inl OSError.
Definition no_parse : string → gmap loc obj → exn + (value * gmap loc obj) :=
  fun _ _ => inl YAMLError.

Definition plain_env : Env := sample_env no_behaviour no_modules no_files no_parse.

(** Two transitions as the simple state table lists them: the first names
    one condition, the second has no 'conditions' key. *)
Definition get_ready_transition : gmap string value :=
  <["trigger" := VStr "get_ready"]>
    (<["source" := VStr "parked"]>
      (<["dest" := VStr "ready"]>
        (<["conditions" := VRef 3%positive]> ∅))).

Definition park_transition : gmap string value :=
  <["trigger" := VStr "park"]>
    (<["source" := VStr "ready"]>
      (<["dest" := VStr "parking"]> ∅)).

Definition two_transitions : world := {|
  w_heap :=
    <[1%positive := ODict get_ready_transition]>
      (<[2%positive := ODict park_transition]>
        (<[3%positive := OList [VStr "is_dark"]]> ∅));
  w_attrs := ∅;
  w_log := []
|}.

(** The simple table: states parked, ready and parking, the two
    transitions of [two_transitions], the machine being in 'ready'. *)
Definition simple_table : gmap string value :=
  <["states" := VRef 11%positive]>
    (<["transitions" := VRef 10%positive]>
      (<["initial" := VStr "parked"]> ∅)).

Definition simple_heap : gmap loc obj :=
  <[12%positive := ODict simple_table]>
    (<[11%positive := OList [VStr "parked"; VStr "ready"; VStr "parking"]]>
      (<[10%positive := OList [VRef 1%positive; VRef 2%positive]]>
        (w_heap two_transitions))).

Definition simple_machine (next : option string) : machine := {|
  state := "ready";
  _next_state := next;
  _is_running := false;
  _state_machine_table := VRef 12%positive;
  _state_table_name := VStr "default";
  m_world := {| w_heap := simple_heap; w_attrs := ∅; w_log := [] |}
|}.

(** A table that declares ready -> parking twice, under two triggers. *)
Definition duplicate_heap : gmap loc obj :=
  <[1%positive := ODict (<["trigger" := VStr "park"]>
                          (<["source" := VStr "ready"]>
                            (<["dest" := VStr "parking"]> ∅)))]>
    (<[2%positive := ODict (<["trigger" := VStr "shut_down"]>
                            (<["source" := VStr "ready"]>
                              (<["dest" := VStr "parking"]> ∅)))]>
      (<[10%positive := OList [VRef 1%positive; VRef 2%positive]]>
        (<[12%positive := ODict (<["transitions" := VRef 10%positive]>
                                  (<["states" := VRef 11%positive]> ∅))]>
          (<[11%positive := OList [VStr "ready"; VStr "parking"]]> ∅)))).

Definition duplicate_machine : machine := {|
  state := "ready";
  _next_state := Some "parking";
  _is_running := false;
  _state_machine_table := VRef 12%positive;
  _state_table_name := VStr "default";
  m_world := {| w_heap := duplicate_heap; w_attrs := ∅; w_log := [] |}
|}.

Definition set_state (s : string) : M machine unit :=
  modify (fun m => Machine s (_next_state m) (_is_running m)
                           (_state_machine_table m) (_state_table_name m)
                           (m_world m)).

(** Two ways of parking: the first arrives and ends the sequence; the
    second changes the state, as an event of the [transitions] package
    does before it runs the callbacks of the state entered, and fails in
    one of them. *)
Definition parking_behaviour (c : callable) (_ : option EventData) : M machine unit :=
  if String.eqb c "park_and_stop" then set_state "parking" >> stop_machine
  else if String.eqb c "park_and_fail" then
    set_state "parking" >> raise (RuntimeError "dome did not close")
  else ret tt.

Definition parking_env : Env :=
  sample_env parking_behaviour no_modules no_files no_parse.

(** The simple machine in 'ready', on which 'park' is bound to [park]. *)
Definition ready_machine (running : bool) (park : callable) : machine := {|
  state := "ready";
  _next_state := Some "ready";
  _is_running := running;
  _state_machine_table := VRef 12%positive;
  _state_table_name := VStr "default";
  m_world := {| w_heap := simple_heap;
                w_attrs := {["park" := park]};
                w_log := [] |}
|}.

(** The machine once lines 94-101 have fallen back on [self.park]. *)
Definition fallen_back (m : machine) : machine :=
  set_world
    (log_to (Log WARNING "No valid state given, parking" [])
       (log_to (Log INFO "{}" [AVal (VStr "parking")])
          (log_to (lookup_line m) (m_world m))))
    m.

Definition moved_to (s : string) (m : machine) : machine :=
  Machine s (_next_state m) (_is_running m)
          (_state_machine_table m) (_state_table_name m) (m_world m).

(** A file that declares transitions and no states. *)
Definition any_file : string → exn + string := fun _ => inr "transitions: []".

Definition parse_transitions_only (text : string) (h : gmap loc obj)
  : exn + (value * gmap loc obj) :=
  let l := fresh (dom h) in
  let h1 := <[l := OList []]> h in
  let tb := fresh (dom h1) in
  inr (VRef tb, <[tb := ODict {["transitions" := VRef l]}]> h1).

Definition stateless_env : Env :=
  sample_env no_behaviour no_modules any_file parse_transitions_only.

Definition empty_world : world := {| w_heap := ∅; w_attrs := ∅; w_log := [] |}.

(** Every module is found, and none has attributes. *)
Definition bare_modules : string → exn + pymodule := fun _ => inr ∅.

Definition bare_env : Env := sample_env no_behaviour bare_modules no_files no_parse.

(** [status()] fails; a callback called with the event succeeds. *)
Definition status_fails (c : callable) (arg : option EventData) : M machine unit :=
  match arg with
  | None => raise (RuntimeError "no status")
  | Some _ => ret tt
  end.

(** Every state module has an [on_enter]. *)
Definition full_modules : string → exn + pymodule :=
  fun _ => inr {["on_enter" := "on_enter"]}.

Definition status_env : Env := sample_env status_fails full_modules no_files no_parse.

Definition entering_ready : EventData :=
  {| event_name := "get_ready"; event_state_name := "ready" |}.

Definition observed_machine : machine := {|
  state := "ready";
  _next_state := None;
  _is_running := true;
  _state_machine_table := VRef 12%positive;
  _state_table_name := VStr "default";
  m_world := {| w_heap := simple_heap;
                w_attrs := <["status" := "status"]>
                             {["on_enter_ready" := "on_enter"]};
                w_log := [] |}
|}.

(** * The logger module (panoptes/utils/logger.py)

    [logging] itself is the standard library: a registry of loggers by
    name, [getLogger] handing out the logger of a name and making it at
    the first request, [addHandler] appending a handler.  What a handler
    writes is left out. *)

(** [log_levels]: logging.DEBUG, logging.ERROR and logging.INFO *)
Definition log_levels : gmap string nat :=
  <["debug" := 10]> (<["error" := 40]> (<["info" := 20]> ∅)).

Record FileHandler := {
  fh_file : string;
  fh_level : nat;
  fh_format : string
}.

(** A [logging.Logger]: its level, NOTSET (0) at first, and its handlers. *)
Record PyLogger := { py_level : nat; py_handlers : list FileHandler }.

(** An instance of the class [Logger]: [self.logger] is the logger of the
    profile in the registry. *)
Record Logger := {
  logger_profile : string;
  file_name : string;
  log_format : string;
  log_fh : FileHandler
}.

Definition getLogger (profile : string) : M (gmap string PyLogger) PyLogger :=
  fun reg => match reg !! profile with
             | Some l => Ok l reg
             | None =>
                 let l := {| py_level := 0; py_handlers := [] |} in
                 Ok l (<[profile := l]> reg)
             end.

(** [log_levels[log_level]] *)
Definition level_of (log_level : string) : M (gmap string PyLogger) nat :=
  match log_levels !! log_level with
  | Some n => ret n
  | None => raise (KeyError log_level)
  end.

(** A method of the logger of [profile] that changes it. *)
Definition on_logger (profile : string) (f : PyLogger → PyLogger)
  : M (gmap string PyLogger) unit :=
  modify (fun reg => match reg !! profile with
                     | Some l => <[profile := f l]> reg
                     | None => reg
                     end).

(** [Logger.__init__] (lines 35-53).  [make_formatter] is
    [logging.Formatter] applied to the format, which raises for a format it
    does not accept; [can_open] tells whether [logging.FileHandler] can
    open the file. *)
Definition Logger_init (make_formatter : string → exn + unit)
    (can_open : string → bool)
    (log_file profile log_level format : string)
  : M (gmap string PyLogger) Logger :=
  getLogger profile >>
  let* lv := level_of log_level in
  on_logger profile (fun l => {| py_level := lv; py_handlers := py_handlers l |}) >>
  match make_formatter format with
  | inl e => raise e
  | inr _ => ret tt
  end >>
  (if can_open log_file then ret tt else raise OSError) >>
  let* lv' := level_of log_level in
  let fh := {| fh_file := log_file; fh_level := lv'; fh_format := format |} in
  on_logger profile
    (fun l => {| py_level := py_level l; py_handlers := py_handlers l ++ [fh] |}) >>
  ret {| logger_profile := profile; file_name := log_file;
         log_format := format; log_fh := fh |}.

(** The handlers of the logger of a name; none when there is no such
    logger. *)
Definition handlers_of (reg : gmap string PyLogger) (profile : string)
  : list FileHandler :=
  match reg !! profile with
  | Some l => py_handlers l
  | None => []
  end.

(** * Further vocabulary and samples *)

(** Lines 96-101, once [_lookup_trigger] has returned [call_method]. *)
Definition after_lookup (call_method : value) : M machine callable :=
  lift (logger INFO "{}" [AVal call_method]) >>
  let* t := lift (truthy call_method) in
  let* b := (if t then lift (hasattr call_method) else ret false) in
  if b then lift (getattr call_method)
  else lift (logger WARNING "No valid state given, parking" []) >>
       lift (getattr (VStr "park")).

Definition trigger_line (call_method : value) : log_entry :=
  Log INFO "{}" [AVal call_method].

Definition parking_line : log_entry :=
  Log WARNING "No valid state given, parking" [].

(** The scan passes over the transition without raising and without
    choosing it: its source is another state, or its destination is. *)
Definition passed_over (h : gmap loc obj) (src : string) (dst : option string)
    (info : value) : Prop :=
  ∃ s, entry h info "source" = Some s
       ∧ (py_eq_str s src = false
          ∨ ∃ v, entry h info "dest" = Some v ∧ py_eq_name v dst = false).

(** The transition is a dictionary. *)
Definition is_dict (h : gmap loc obj) (info : value) : Prop :=
  ∃ t d, info = VRef t ∧ h !! t = Some (ODict d).

(** The key the scan asks the transition for and does not find. *)
Definition missing_on_scan (h : gmap loc obj) (src : string) (dst : option string)
    (info : value) (key : string) : Prop :=
  is_dict h info
  ∧ ((entry h info "source" = None ∧ key = "source")
     ∨ (∃ s, entry h info "source" = Some s ∧ py_eq_str s src = true
             ∧ entry h info "dest" = None ∧ key = "dest")
     ∨ (matching h src dst info = true
        ∧ entry h info "trigger" = None ∧ key = "trigger")).

(** The exception that leaves [_load_state] when [resolve_name] raised [e]. *)
Definition load_state_error (module_name : string) (e : exn) : exn :=
  let raised := if bool_decide (e = ImportError) then NotFound module_name else e in
  if is_Exception raised then UnboundLocalError "s" else raised.

(** A machine on which neither 'parking' nor 'park' is bound. *)
Definition unbound_machine : machine := {|
  state := "ready";
  _next_state := Some "ready";
  _is_running := true;
  _state_machine_table := VRef 12%positive;
  _state_table_name := VStr "default";
  m_world := {| w_heap := simple_heap; w_attrs := ∅; w_log := [] |}
|}.

(** The callable is interrupted from the keyboard. *)
Definition interrupted (c : callable) (arg : option EventData) : M machine unit :=
  raise KeyboardInterrupt.

Definition interrupt_env : Env := sample_env interrupted no_modules no_files no_parse.

(** [ready_machine] with something in the log already. *)
Definition ready_machine_logged (park : callable) (lg : list log_entry) : machine := {|
  state := "ready";
  _next_state := Some "ready";
  _is_running := true;
  _state_machine_table := VRef 12%positive;
  _state_table_name := VStr "default";
  m_world := {| w_heap := simple_heap;
                w_attrs := {["park" := park]};
                w_log := lg |}
|}.

(** An empty file, which [yaml.load] parses to [None]. *)
Definition parse_nothing (text : string) (h : gmap loc obj)
  : exn + (value * gmap loc obj) := inr (VNone, h).

Definition empty_file_env : Env := sample_env no_behaviour no_modules any_file parse_nothing.

(** A table in which 'shut_down' has lost its 'dest' and the entry after it
    its 'source'. *)
Definition broken_heap : gmap loc obj :=
  <[1%positive := ODict (<["trigger" := VStr "shut_down"]>
                          (<["source" := VStr "parked"]> ∅))]>
    (<[2%positive := ODict (<["trigger" := VStr "park"]>
                            (<["dest" := VStr "parking"]> ∅))]>
      (<[10%positive := OList [VRef 1%positive; VRef 2%positive]]>
        (<[12%positive := ODict (<["transitions" := VRef 10%positive]>
                                  (<["states" := VRef 11%positive]> ∅))]>
          (<[11%positive := OList [VStr "ready"; VStr "parking"]]> ∅)))).

Definition broken_machine : machine := {|
  state := "ready";
  _next_state := Some "parking";
  _is_running := false;
  _state_machine_table := VRef 12%positive;
  _state_table_name := VStr "default";
  m_world := {| w_heap := broken_heap; w_attrs := ∅; w_log := [] |}
|}.

(** The module of 'ready' has an [on_enter], no other module is found. *)
Definition ready_only_modules (module_name : string) : exn + pymodule :=
  if String.eqb module_name "pocs.state.states.default.ready"
  then inr {["on_enter" := "on_enter"]}
  else inl ImportError.

Definition ready_only_env : Env :=
  sample_env no_behaviour ready_only_modules no_files no_parse.

(** The simple machine in 'ready', asked to go to 'parking'. *)
Definition requesting_parking (park : callable) : machine := {|
  state := "ready";
  _next_state := Some "parking";
  _is_running := true;
  _state_machine_table := VRef 12%positive;
  _state_table_name := VStr "default";
  m_world := {| w_heap := simple_heap;
                w_attrs := {["park" := park]};
                w_log := [] |}
|}.

(** * Construction and the condition lists *)

(** The contract assumed of the two collaborators that [__init__] runs
    around the loading of the table: making the database handle and the
    constructor of the [transitions] package leave the lists and
    dictionaries of the heap as they are. *)
Definition collaborators_keep_heap (E : Env) : Prop :=
  (∀ w, match PanMongo E w with
        | Ok _ w' | Raise _ w' => w_heap w' = w_heap w
        end)
  ∧ (∀ states ts initial w,
       match Machine_init E states ts initial w with
       | Ok _ w' | Raise _ w' => w_heap w' = w_heap w
       end).

(** [table] is a dictionary of the heap whose 'transitions' is the list of
    the dictionaries at [ts], a well-formed list; the conditions of a
    transition are never that list of transitions itself, which the loop
    of line 39 is running over. *)
Definition table_of (h : gmap loc obj) (table : value) (ts : list loc) : Prop :=
  ∃ tb d tl,
    table = VRef tb
    ∧ h !! tb = Some (ODict d)
    ∧ d !! "transitions" = Some (VRef tl)
    ∧ h !! tl = Some (OList (VRef <$> ts))
    ∧ tidy h ts
    ∧ ∀ t, t ∈ ts → condition_list h t ≠ Some tl.

(** C1, as it is worded: in the machine that [__init__] has built, two
    distinct transitions of the table never refer to the same list. *)
Definition transitions_never_share : Prop :=
  ∀ (E : Env) (arg table : value) (w w0 w' : world) (ts : list loc)
    (m : machine),
    listify_contract E →
    collaborators_keep_heap E →
    given_table E arg w = Ok table w0 →
    table_of (w_heap w0) table ts →
    __init__ E arg w = Ok m w' →
    ∀ t1 t2 l1 l2, t1 ∈ ts → t2 ∈ ts → t1 ≠ t2 →
      condition_list (m_heap m) t1 = Some l1 →
      condition_list (m_heap m) t2 = Some l2 →
      l1 ≠ l2.

(** The simple table again, but with one list of conditions that both
    transitions refer to, as a YAML anchor or a literal built around one
    list gives. *)
Definition shared_heap : gmap loc obj :=
  <[1%positive := ODict get_ready_transition]>
    (<[2%positive := ODict (<["conditions" := VRef 3%positive]> park_transition)]>
      (<[3%positive := OList [VStr "is_dark"]]>
        (<[10%positive := OList [VRef 1%positive; VRef 2%positive]]>
          (<[11%positive := OList [VStr "parked"; VStr "ready"; VStr "parking"]]>
            (<[12%positive := ODict simple_table]> ∅))))).

Definition shared_world : world :=
  {| w_heap := shared_heap; w_attrs := ∅; w_log := [] |}.

Definition simple_world : world :=
  {| w_heap := simple_heap; w_attrs := ∅; w_log := [] |}.

(** * Properties *)

(** ** Heap and monad facts *)

Lemma fresh_unused (h : gmap loc obj) : h !! fresh (dom h) = None.
Proof. apply not_elem_of_dom, is_fresh. Qed.

(** Unfold the monadic plumbing and the projections of the world. *)
Ltac run_world :=
  cbv beta delta
    [bind ret raise get modify logger alloc get_or_new_list list_insert0
     setitem getitem dict_get set_heap set_attr log_to];
  simpl.

Ltac run_world_in H :=
  cbv beta delta
    [bind ret raise get modify logger alloc get_or_new_list list_insert0
     setitem getitem dict_get set_heap set_attr log_to] in H;
  simpl in H.

Section load_transition.
Context (E : Env) (listify_ok : listify_contract E).

Lemma _load_transition_spec (w : world) (t : loc) (d : gmap string value) :
  w_heap w !! t = Some (ODict d) →
  ∃ l w',
    _load_transition E (VRef t) w = Ok (VRef t) w'
    ∧ w_heap w' !! t = Some (ODict (<["conditions" := VRef l]> d))
    ∧ w_heap w' !! l
      = Some (OList (check_safety :: listed_conditions (w_heap w) d))
    ∧ ((d !! "conditions" = Some (VRef l)
        ∧ ∃ xs, w_heap w !! l = Some (OList xs))
       ∨ w_heap w !! l = None)
    ∧ (∀ k, k ≠ t → k ≠ l → is_Some (w_heap w !! k) →
            w_heap w' !! k = w_heap w !! k)
    ∧ l ≠ t
    ∧ w_attrs w' = w_attrs w.
Proof.
  intros Ht. destruct w as [h ats lg]. simpl in Ht.
  unfold _load_transition, call_listify, listed_conditions. run_world.
  rewrite Ht.
  destruct (d !! "conditions") as [v|] eqn:Hc; simpl.
  - pose proof (listify_ok v h) as HL.
    destruct (listify E v h) as [l h'].
    destruct HL as [(-> & -> & Hl) | (Hl & ->)]; simpl.
    + assert (l ≠ t) as Hne by (intros ->; congruence).
      rewrite Hl. simpl. rewrite lookup_insert_ne, Ht by done. simpl.
      eexists l, _. split; [reflexivity|]. simpl.
      rewrite lookup_insert_eq.
      rewrite lookup_insert_ne, lookup_insert_eq by done.
      repeat split; eauto.
      intros k Hk1 Hk2 _. by rewrite !lookup_insert_ne.
    + assert (l ≠ t) as Hne by (intros ->; congruence).
      rewrite lookup_insert_eq. simpl.
      rewrite lookup_insert_ne, lookup_insert_ne, Ht by done. simpl.
      eexists l, _. split; [reflexivity|]. simpl.
      rewrite lookup_insert_eq.
      rewrite lookup_insert_ne, lookup_insert_eq by done.
      repeat split; eauto.
      intros k Hk1 Hk2 _. by rewrite !lookup_insert_ne.
  - pose proof (fresh_unused h) as Hn.
    set (n := fresh (dom h)) in *.
    assert (n ≠ t) as Hnt by (intros ->; congruence).
    pose proof (listify_ok (VRef n) (<[n := OList []]> h)) as HL.
    assert (listed (<[n := OList []]> h) (VRef n) = []) as Hlisted
      by (simpl; by rewrite lookup_insert_eq).
    rewrite Hlisted in HL.
    destruct (listify E (VRef n) (<[n := OList []]> h)) as [l h'].
    destruct HL as [(Hv & -> & Hl) | (Hl & ->)]; simpl.
    + injection Hv as <-.
      rewrite lookup_insert_eq. simpl.
      rewrite lookup_insert_ne, lookup_insert_ne, Ht by done. simpl.
      eexists n, _. split; [reflexivity|]. simpl.
      rewrite lookup_insert_eq.
      rewrite lookup_insert_ne, lookup_insert_eq by done.
      repeat split; eauto.
      intros k Hk1 Hk2 _. by rewrite !lookup_insert_ne.
    + assert (l ≠ n) as Hln by (intros ->; by rewrite lookup_insert_eq in Hl).
      rewrite lookup_insert_ne in Hl by done.
      assert (l ≠ t) as Hlt by (intros ->; congruence).
      rewrite lookup_insert_eq. simpl.
      rewrite !lookup_insert_ne, Ht by done. simpl.
      eexists l, _. split; [reflexivity|]. simpl.
      rewrite lookup_insert_eq.
      rewrite lookup_insert_ne, lookup_insert_eq by done.
      repeat split; eauto.
      intros k Hk1 Hk2 Hk. rewrite !lookup_insert_ne; try done.
      intros <-. rewrite Hn in Hk. by destruct Hk.
Qed.

Lemma loaded_condition_list h h' t :
  loaded h h' t →
  ∃ l, condition_list h' t = Some l
       ∧ safety_first h' l
       ∧ (condition_list h t = Some l ∨ h !! l = None).
Proof.
  intros (d & l & _ & Ht & [xs Hl] & Hor). exists l.
  unfold condition_list at 1. rewrite Ht, lookup_insert_eq, Hl.
  split; [done|]. split; [by exists xs|done].
Qed.

Lemma condition_list_is_list h t l :
  condition_list h t = Some l → ∃ xs, h !! l = Some (OList xs).
Proof.
  unfold condition_list. intros H. repeat case_match; simplify_eq. eauto.
Qed.

Lemma comprehension_cons {S A B} (f : A → M S B) x xs s y s1 ys s2 :
  f x s = Ok y s1 →
  comprehension f xs s1 = Ok ys s2 →
  comprehension f (x :: xs) s = Ok (y :: ys) s2.
Proof. intros H1 H2. simpl. unfold bind, ret. by rewrite H1, H2. Qed.

Lemma load_transitions_spec (ts : list loc) : ∀ w,
  tidy (w_heap w) ts →
  ∃ w',
    load_transitions E (VRef <$> ts) w = Ok (VRef <$> ts) w'
    ∧ (∀ k, is_Some (w_heap w !! k) → is_Some (w_heap w' !! k))
    ∧ (∀ k, is_Some (w_heap w !! k) → k ∉ ts →
            (∀ t, t ∈ ts → condition_list (w_heap w) t ≠ Some k) →
            w_heap w' !! k = w_heap w !! k)
    ∧ (∀ k xs, w_heap w !! k = Some (OList xs) →
            ∃ ys, w_heap w' !! k = Some (OList ys)
                  ∧ (safety_first (w_heap w) k → safety_first (w_heap w') k))
    ∧ (∀ t, t ∈ ts → loaded (w_heap w) (w_heap w') t)
    ∧ (∀ t1 t2 l, t1 ∈ ts → t2 ∈ ts → t1 ≠ t2 →
            condition_list (w_heap w') t1 = Some l →
            condition_list (w_heap w') t2 = Some l →
            condition_list (w_heap w) t1 = Some l
            ∧ condition_list (w_heap w) t2 = Some l).
Proof.
  induction ts as [|t ts IH]; intros w [Hnd Hdicts].
  { exists w. split; [done|]. split; [done|]. split; [done|].
    split; [|split].
    - intros k xs Hk. by exists xs.
    - intros t Ht. by apply elem_of_nil in Ht.
    - intros t1 t2 l Ht1. by apply elem_of_nil in Ht1. }
  apply NoDup_cons in Hnd as [Htts Hnd].
  destruct (Hdicts t) as (d & Hd & Hda); [left|].
  destruct (_load_transition_spec w t d Hd)
    as (l & w1 & Hrun & S1 & S2 & S3 & S4 & S5 & _).
  set (h := w_heap w) in *. set (h1 := w_heap w1) in *.
  assert (Hdom : ∀ k, is_Some (h !! k) → is_Some (h1 !! k)).
  { intros k Hk. destruct (decide (k = t)) as [->|];
      [by rewrite S1|]. destruct (decide (k = l)) as [->|];
      [by rewrite S2|]. by rewrite S4. }
  assert (Hl_list : condition_list h t = Some l ∨ h !! l = None).
  { destruct S3 as [[Hc [xs Hxs]]|]; [left|by right].
    unfold condition_list. by rewrite Hd, Hc, Hxs. }
  assert (Hl_notin : ∀ t', t' ∈ ts → t' ≠ l).
  { intros t' Ht' ->. destruct (Hdicts l) as (d' & Hd' & _); [by right|].
    destruct S3 as [[_ [xs Hxs]]|]; congruence. }
  assert (Hsame : ∀ t', t' ∈ ts → h1 !! t' = h !! t').
  { intros t' Ht'. apply S4; [by intros ->|by apply Hl_notin|].
    destruct (Hdicts t') as (d' & -> & _); [by right|done]. }
  assert (Hcl : ∀ t' a, t' ∈ ts →
            condition_list h1 t' = Some a → condition_list h t' = Some a).
  { intros t' a Ht' Hc. destruct (condition_list_is_list _ _ _ Hc) as [ys Hys].
    unfold condition_list in Hc |- *. rewrite (Hsame t' Ht') in Hc.
    destruct (Hdicts t') as (d' & Hd' & Ha); [by right|]. rewrite Hd' in Hc |- *.
    destruct (d' !! "conditions") as [[| |a']|] eqn:Hcond; try done.
    assert (a' = a) as -> by (repeat case_match; simplify_eq; done).
    specialize (Ha a eq_refl).
    assert (a ≠ t) by (intros ->; congruence).
    destruct (decide (a = l)) as [->|Hal].
    - destruct S3 as [[_ [xs Hxs]]|Hn]; [by rewrite Hxs|].
      rewrite Hn in Ha. by destruct Ha.
    - rewrite <- (S4 a) by done. by rewrite Hys. }
  destruct (IH w1) as (w' & I1 & I2 & I3 & IL & I4 & I5).
  { fold h1. split; [done|].
    intros t' Ht'. destruct (Hdicts t') as (d' & Hd' & Ha); [by right|].
    exists d'. split; [by rewrite (Hsame t' Ht')|].
    intros a Hc. apply Hdom. by apply Ha. }
  fold h1 in I2, I3, IL, I4, I5. set (h' := w_heap w') in *.
  assert (T1 : h' !! t = Some (ODict (<["conditions" := VRef l]> d))).
  { rewrite <- S1. apply I3; [by rewrite S1|done|].
    intros t' Ht' Hc. apply condition_list_is_list in Hc as [xs Hxs].
    congruence. }
  assert (T2 : safety_first h' l).
  { destruct (IL l _ S2) as (ys & _ & Hys). apply Hys. by eexists. }
  assert (L1 : condition_list h' t = Some l).
  { destruct T2 as [xs Hxs]. unfold condition_list.
    by rewrite T1, lookup_insert_eq, Hxs. }
  assert (Hhead : loaded h h' t) by (by exists d, l).
  assert (Htail : ∀ t', t' ∈ ts → loaded h h' t').
  { intros t' Ht'. destruct (I4 t' Ht') as (d' & l' & J1 & J2 & J3 & J4).
    rewrite (Hsame t' Ht') in J1.
    exists d', l'. split; [done|]. split; [done|]. split; [done|].
    destruct J4 as [J4|J4]; [left; by apply Hcl|right].
    destruct (h !! l') eqn:Hl'; [|done].
    destruct (Hdom l') as [? Hx]; [by rewrite Hl'|congruence]. }
  assert (Hcross : ∀ t', t' ∈ ts → condition_list h' t' = Some l →
            condition_list h t' = Some l ∧ condition_list h t = Some l).
  { intros t' Ht' Hc.
    destruct (loaded_condition_list _ _ _ (I4 t' Ht')) as (l' & K1 & _ & K3).
    assert (l' = l) as -> by congruence.
    destruct K3 as [K3|K3]; [|rewrite S2 in K3; done].
    apply Hcl in K3; [|done]. split; [done|].
    destruct Hl_list as [|Hn]; [done|].
    apply condition_list_is_list in K3 as [xs Hxs]. congruence. }
  exists w'. split; [|split; [|split; [|split; [|split]]]].
  - unfold load_transitions. rewrite fmap_cons.
    eapply comprehension_cons; [exact Hrun|exact I1].
  - intros k Hk. by apply I2, Hdom.
  - intros k Hk Hnotin Hc.
    apply not_elem_of_cons in Hnotin as [Hkt Hkts].
    rewrite I3; [| by apply Hdom | done |].
    + apply S4; [done| |done]. intros ->.
      destruct Hl_list as [Hx|Hx]; [|rewrite Hx in Hk; by destruct Hk].
      apply (Hc t); [left|done].
    + intros t' Ht' Hx. apply (Hc t'); [by right|by apply Hcl].
  - intros k xs Hk.
    assert (k ≠ t) by (intros ->; congruence).
    destruct (decide (k = l)) as [->|Hkl].
    + destruct T2 as [ys Hys]. exists (check_safety :: ys).
      split; [done|]. intros _. by exists ys.
    + assert (h1 !! k = Some (OList xs)) as Hk1 by (rewrite S4; by rewrite ?Hk).
      destruct (IL k xs Hk1) as (ys & Hys & Hkeep). exists ys.
      split; [done|]. intros [zs Hzs]. apply Hkeep. exists zs. congruence.
  - intros t' [->|Ht']%elem_of_cons; [done|by apply Htail].
  - fold h'.
    intros t1 t2 a [->|Ht1]%elem_of_cons [->|Ht2]%elem_of_cons Hne H1 H2;
      try done.
    + rewrite L1 in H1. injection H1 as <-.
      destruct (Hcross t2 Ht2 H2). done.
    + rewrite L1 in H2. injection H2 as <-.
      destruct (Hcross t1 Ht1 H1). done.
    + destruct (I5 t1 t2 a Ht1 Ht2 Hne H1 H2). split; by apply Hcl.
Qed.

End load_transition.

(** ** Loading the transitions *)

Lemma listify_same_contract behaviour modules files parse :
  listify_contract (sample_env behaviour modules files parse).
Proof.
  intros v h. simpl. unfold listify_same.
  pose proof (fresh_unused h) as Hn.
  destruct v as [| s | l]; simpl; [by right|by right|].
  destruct (h !! l) as [[xs|d]|] eqn:Hl; [by left|by right|by right].
Qed.

Example load_two :
  match load_transitions plain_env [VRef 1%positive; VRef 2%positive] two_transitions with
  | Ok r w => r = [VRef 1%positive; VRef 2%positive] ∧
      w_heap w !! 3%positive = Some (OList [check_safety; VStr "is_dark"]) ∧
      w_heap w !! 4%positive = Some (OList [check_safety]) ∧
      condition_list (w_heap w) 2%positive = Some 4%positive
  | _ => False
  end.
Proof. vm_compute. repeat split. Qed.


(** C10: [_load_transition] returns the dictionary it was given and has
    changed it in place: its 'conditions' entry now refers to a list made
    of 'check_safety' followed by the conditions it listed.  A second call
    on the same dictionary puts a second 'check_safety' in front. *)
Theorem C10_load_transition_in_place_not_idempotent
    (E : Env) (w : world) (t : loc) (d : gmap string value) :
  listify_contract E →
  w_heap w !! t = Some (ODict d) →
  ∃ l1 w1 l2 w2,
    _load_transition E (VRef t) w = Ok (VRef t) w1
    ∧ w_heap w1 !! t = Some (ODict (<["conditions" := VRef l1]> d))
    ∧ w_heap w1 !! l1
      = Some (OList (check_safety :: listed_conditions (w_heap w) d))
    ∧ _load_transition E (VRef t) w1 = Ok (VRef t) w2
    ∧ w_heap w2 !! t = Some (ODict (<["conditions" := VRef l2]> d))
    ∧ w_heap w2 !! l2
      = Some (OList (check_safety :: check_safety
                       :: listed_conditions (w_heap w) d)).
Proof.
  intros HL Ht.
  destruct (_load_transition_spec E HL w t d Ht)
    as (l1 & w1 & R1 & D1 & L1 & _).
  destruct (_load_transition_spec E HL w1 t _ D1)
    as (l2 & w2 & R2 & D2 & L2 & _).
  exists l1, w1, l2, w2. repeat split; try done.
  - by rewrite insert_insert_eq in D2.
  - rewrite L2. unfold listed_conditions at 1.
    rewrite lookup_insert_eq. simpl. by rewrite L1.
Qed.

(** The transition 'park', which has no 'conditions' key. *)
Lemma C10_witness :
  ∃ l1 w1 l2 w2,
    _load_transition plain_env (VRef 2%positive) two_transitions
    = Ok (VRef 2%positive) w1
    ∧ w_heap w1 !! 2%positive
      = Some (ODict (<["conditions" := VRef l1]> park_transition))
    ∧ w_heap w1 !! l1
      = Some (OList (check_safety
                       :: listed_conditions (w_heap two_transitions)
                                            park_transition))
    ∧ _load_transition plain_env (VRef 2%positive) w1 = Ok (VRef 2%positive) w2
    ∧ w_heap w2 !! 2%positive
      = Some (ODict (<["conditions" := VRef l2]> park_transition))
    ∧ w_heap w2 !! l2
      = Some (OList (check_safety :: check_safety
                       :: listed_conditions (w_heap two_transitions)
                                            park_transition)).
Proof.
  apply (C10_load_transition_in_place_not_idempotent plain_env two_transitions
           2%positive park_transition).
  - apply listify_same_contract.
  - reflexivity.
Defined.

(** ** Trigger lookup *)

Lemma set_world_same m : set_world (m_world m) m = m.
Proof. by destruct m. Qed.

Lemma lift_getitem (m : machine) info key v :
  entry (m_heap m) info key = Some v →
  lift (getitem info key) m = Ok v m.
Proof.
  unfold entry, m_heap, lift, getitem. run_world.
  destruct info as [| |t]; try done.
  destruct (w_heap (m_world m) !! t) as [[|d]|]; try done.
  intros ->. simpl. by rewrite set_world_same.
Qed.

Lemma scan_transitions_skip (pre rest : list value) (m : machine) :
  (∀ info, info ∈ pre →
     has_endpoints (m_heap m) info
     ∧ matching (m_heap m) (state m) (_next_state m) info = false) →
  scan_transitions (pre ++ rest) m = scan_transitions rest m.
Proof.
  induction pre as [|info pre IH]; intros Hpre; [done|].
  destruct (Hpre info) as [[[s Hs] [v Hv]] Hno]; [left|].
  unfold matching in Hno. rewrite Hs, Hv in Hno.
  simpl. unfold bind at 1. unfold get at 1.
  unfold bind at 1. rewrite (lift_getitem m info "source" s Hs).
  destruct (py_eq_str s (state m)); simpl in Hno.
  - unfold bind at 1. rewrite (lift_getitem m info "dest" v Hv).
    rewrite Hno. apply IH. intros i Hi. apply Hpre. by right.
  - apply IH. intros i Hi. apply Hpre. by right.
Qed.

Lemma _lookup_trigger_scan (m : machine) infos :
  table_transitions m = Some infos →
  _lookup_trigger m = scan_transitions infos (logged (lookup_line m) m).
Proof.
  unfold table_transitions, m_heap, _lookup_trigger, logged, lookup_line.
  destruct m as [st nx rn tb tn w]. simpl.
  destruct tb as [| |tb]; try done.
  destruct (w_heap w !! tb) as [[|table]|] eqn:Htb; try done.
  destruct (table !! "transitions") as [[| |tl]|] eqn:Htl; try done.
  destruct (w_heap w !! tl) as [[infos'|]|] eqn:Hinfos; try done.
  intros [= ->].
  unfold lift, py_iter. run_world. rewrite Htb. simpl. rewrite Htl. simpl.
  rewrite Hinfos. done.
Qed.

Lemma logged_heap e m : m_heap (logged e m) = m_heap m.
Proof. done. Qed.

(** C3: when no transition of the table goes from the current state to
    the requested one, [_lookup_trigger] returns 'parking'; the declared
    state names play no part, so this covers a destination that is not a
    declared state.  Nothing but the log has changed. *)
Theorem C3_no_match_gives_parking (m : machine) (infos : list value) :
  table_transitions m = Some infos →
  (∀ info, info ∈ infos → has_endpoints (m_heap m) info) →
  (∀ info, info ∈ infos →
     matching (m_heap m) (state m) (_next_state m) info = false) →
  _lookup_trigger m = Ok (VStr "parking") (logged (lookup_line m) m).
Proof.
  intros Htable Hwf Hno.
  rewrite (_lookup_trigger_scan m infos Htable).
  rewrite <- (app_nil_r infos).
  rewrite scan_transitions_skip; [done|].
  intros info Hin. rewrite logged_heap. split; [by apply Hwf|by apply Hno].
Qed.

(** C4: the lookup scans the transitions in the order of the table and
    returns the trigger of the first one that goes from the current state
    to the requested one, whatever follows it, another transition with the
    same end points included.  Its result is a function of the table and
    of the two states, and it changes nothing but the log. *)
Theorem C4_first_declared_match_wins
    (m : machine) (pre post : list value) (info trigger : value) :
  table_transitions m = Some (pre ++ info :: post)%list →
  (∀ i, i ∈ pre →
     has_endpoints (m_heap m) i
     ∧ matching (m_heap m) (state m) (_next_state m) i = false) →
  matching (m_heap m) (state m) (_next_state m) info = true →
  entry (m_heap m) info "trigger" = Some trigger →
  _lookup_trigger m = Ok trigger (logged (lookup_line m) m).
Proof.
  intros Htable Hpre Hmatch Htrigger.
  rewrite (_lookup_trigger_scan m _ Htable).
  rewrite scan_transitions_skip by done.
  set (m' := logged (lookup_line m) m).
  unfold matching in Hmatch.
  destruct (entry (m_heap m) info "source") as [s|] eqn:Hs; [|done].
  destruct (entry (m_heap m) info "dest") as [v|] eqn:Hv; [|done].
  apply andb_prop in Hmatch as [Hsrc Hdst].
  simpl. unfold bind at 1. unfold get at 1.
  unfold bind at 1. rewrite (lift_getitem m' info "source" s Hs).
  change (state m') with (state m). rewrite Hsrc.
  unfold bind at 1. rewrite (lift_getitem m' info "dest" v Hv).
  change (_next_state m') with (_next_state m). rewrite Hdst.
  by apply lift_getitem.
Qed.

(** From 'ready' to 'observing', which the simple table does not declare. *)
Lemma C3_witness :
  _lookup_trigger (simple_machine (Some "observing"))
  = Ok (VStr "parking")
       (logged (lookup_line (simple_machine (Some "observing")))
               (simple_machine (Some "observing"))).
Proof.
  apply (C3_no_match_gives_parking (simple_machine (Some "observing"))
           [VRef 1%positive; VRef 2%positive]).
  - reflexivity.
  - intros info Hin. apply elem_of_cons in Hin as [-> | Hin];
      [|apply list_elem_of_singleton in Hin as ->];
      split; by eexists.
  - intros info Hin. apply elem_of_cons in Hin as [-> | Hin];
      [|apply list_elem_of_singleton in Hin as ->]; reflexivity.
Defined.

(** ready -> parking is declared twice: the first trigger is returned. *)
Lemma C4_witness :
  _lookup_trigger duplicate_machine
  = Ok (VStr "park") (logged (lookup_line duplicate_machine) duplicate_machine).
Proof.
  apply (C4_first_declared_match_wins duplicate_machine
           [] [VRef 2%positive] (VRef 1%positive) (VStr "park")).
  - reflexivity.
  - intros i Hi. by apply elem_of_nil in Hi.
  - reflexivity.
  - reflexivity.
Defined.

(** ** The run loop *)

(** C9: [stop_machine] clears the running flag and leaves the current
    state, the requested state, the table, the heap with every transition,
    the attributes and the log as they were; a second call changes
    nothing more. *)
Theorem C9_stop_machine_only_clears_running (m : machine) :
  (∃ m', stop_machine m = Ok tt m'
         ∧ _is_running m' = false
         ∧ state m' = state m
         ∧ _next_state m' = _next_state m
         ∧ _state_machine_table m' = _state_machine_table m
         ∧ _state_table_name m' = _state_table_name m
         ∧ m_world m' = m_world m)
  ∧ (stop_machine >> stop_machine) m = stop_machine m.
Proof. split; [by exists (stopped m)|done]. Qed.

(** Whatever leaves the loop normally has found the flag cleared. *)
Lemma while_running_returns_stopped (E : Env) (fuel : nat) :
  ∀ m m', while_running E fuel m = Some (Ok tt m') → _is_running m' = false.
Proof.
  induction fuel as [|n IH]; intros m m'; simpl;
    destruct (_is_running m) eqn:Hrun; try done.
  - by intros [= <-].
  - destruct (run_body E m) as [[] m1|e m1]; [apply IH|done].
  - by intros [= <-].
Qed.

(** C8: when [run] returns normally, [is_running] is false; the loop is
    only left through its test. *)
Theorem C8_run_returns_not_running (E : Env) (fuel : nat) (m m' : machine) :
  run E fuel m = Some (Ok tt m') →
  is_running m' = Ok false m'.
Proof.
  unfold run, is_running. simpl. intros Hrun.
  by rewrite (while_running_returns_stopped E fuel _ m' Hrun).
Qed.

Lemma same_fields_trans m1 m2 m3 :
  same_fields m1 m2 → same_fields m2 m3 → same_fields m1 m3.
Proof. unfold same_fields. intuition congruence. Qed.

Lemma keeps_lift {A} (c : M world A) : keeps_fields (lift c).
Proof. intros m. unfold lift. by destruct (c (m_world m)). Qed.

Lemma keeps_ret {A} (a : A) : keeps_fields (ret a).
Proof. by intros m. Qed.

Lemma keeps_get : keeps_fields get.
Proof. by intros m. Qed.

Lemma keeps_bind {A B} (c : M machine A) (k : A → M machine B) :
  keeps_fields c → (∀ a, keeps_fields (k a)) → keeps_fields (bind c k).
Proof.
  intros Hc Hk m. unfold bind. specialize (Hc m).
  destruct (c m) as [a m1|e m1]; [|done].
  specialize (Hk a m1).
  destruct (k a m1); by eapply same_fields_trans.
Qed.

Lemma keeps_scan_transitions infos : keeps_fields (scan_transitions infos).
Proof.
  induction infos as [|info rest IH]; simpl; [apply keeps_ret|].
  apply keeps_bind; [apply keeps_get|]. intros self.
  apply keeps_bind; [apply keeps_lift|]. intros src.
  destruct (py_eq_str src (state self)); [|done].
  apply keeps_bind; [apply keeps_lift|]. intros dst.
  destruct (py_eq_name dst (_next_state self)); [apply keeps_lift|done].
Qed.

Lemma keeps_resolve_caller : keeps_fields resolve_caller.
Proof.
  unfold resolve_caller, _lookup_trigger.
  repeat first
    [ apply keeps_lift | apply keeps_ret | apply keeps_get
    | apply keeps_scan_transitions
    | apply keeps_bind; [|intros ?]
    | match goal with |- keeps_fields (if ?b then _ else _) => destruct b end ].
Qed.

Lemma while_running_stopped (E : Env) (n : nat) (m : machine) :
  _is_running m = false → while_running E n m = Some (Ok tt m).
Proof. intros H. destruct n; simpl; by rewrite H. Qed.

(** C2, as the code has it: when the callable resolved in a pass of the
    loop raises an exception deriving from Exception, the loop ends
    normally: the warning is logged, the flag is cleared and nothing is
    raised to the caller of [run].  The current state is the one the
    callable left behind when it raised; the loop has not written it,
    neither before the call nor after. *)
Theorem C2_fault_degrades_to_stop
    (E : Env) (n : nat) (m m1 m2 : machine) (c : callable) (e : exn) :
  _is_running m = true →
  resolve_caller m = Ok c m1 →
  call E c None m1 = Raise e m2 →
  is_Exception e = true →
  ∃ m3,
    while_running E (S n) m = Some (Ok tt m3)
    ∧ _is_running m3 = false
    ∧ w_log (m_world m3) = (w_log (m_world m2) ++ [fault_line e])%list
    ∧ state m3 = state m2
    ∧ state m1 = state m.
Proof.
  intros Hrun Hres Hcall He.
  exists (stopped (logged (fault_line e) m2)).
  split; [|repeat split].
  - simpl. rewrite Hrun. unfold run_body, bind at 1. rewrite Hres.
    unfold try_except. rewrite Hcall, He.
    change ((lift (logger WARNING "Problem calling next state: {}" [AExc e]) >>
             stop_machine) m2)
      with (Ok (S:=machine) tt (stopped (logged (fault_line e) m2))).
    by apply while_running_stopped.
  - pose proof (keeps_resolve_caller m) as Hk. rewrite Hres in Hk.
    by destruct Hk.
Qed.

Example run_park_and_fail :
  match run parking_env 1 (ready_machine false "park_and_fail") with
  | Some (Ok _ m) => state m = "parking" ∧ _is_running m = false
  | _ => False
  end.
Proof. vm_compute. done. Qed.

Lemma ready_machine_falls_back (park : callable) :
  resolve_caller (ready_machine true park)
  = Ok park (fallen_back (ready_machine true park)).
Proof. vm_compute. reflexivity. Qed.

Lemma park_and_fail_raises (m : machine) :
  call parking_env "park_and_fail" None m
  = Raise (RuntimeError "dome did not close") (moved_to "parking" m).
Proof. reflexivity. Qed.

(** The machine is in 'ready'; its 'park' moves it to 'parking' and then
    fails.  The loop ends normally, in 'parking'. *)
Lemma C2_counterexample : ¬ fault_leaves_state_unchanged.
Proof.
  intros H.
  destruct (H parking_env 0 (ready_machine true "park_and_fail") _ _ _ _
              eq_refl (ready_machine_falls_back _) (park_and_fail_raises _)
              eq_refl)
    as (m3 & Hloop & _ & Hstate).
  vm_compute in Hloop. injection Hloop as <-. vm_compute in Hstate.
  discriminate Hstate.
Qed.

(** The same fault, read through the theorem. *)
Lemma C2_witness :
  ∃ m3,
    while_running parking_env 1 (ready_machine true "park_and_fail")
    = Some (Ok tt m3)
    ∧ _is_running m3 = false
    ∧ w_log (m_world m3)
      = (w_log (m_world (moved_to "parking"
                           (fallen_back (ready_machine true "park_and_fail"))))
         ++ [fault_line (RuntimeError "dome did not close")])%list
    ∧ state m3
      = state (moved_to "parking"
                 (fallen_back (ready_machine true "park_and_fail")))
    ∧ state (fallen_back (ready_machine true "park_and_fail"))
      = state (ready_machine true "park_and_fail").
Proof.
  apply (C2_fault_degrades_to_stop parking_env 0
           (ready_machine true "park_and_fail")
           (fallen_back (ready_machine true "park_and_fail"))
           (moved_to "parking" (fallen_back (ready_machine true "park_and_fail")))
           "park_and_fail" (RuntimeError "dome did not close")).
  - reflexivity.
  - apply ready_machine_falls_back.
  - apply park_and_fail_raises.
  - reflexivity.
Defined.

Lemma park_and_stop_returns :
  run parking_env 1 (ready_machine false "park_and_stop")
  = Some (Ok tt (stopped (moved_to "parking"
                   (fallen_back (ready_machine true "park_and_stop"))))).
Proof. vm_compute. reflexivity. Qed.

(** A run that parks and stops returns with the flag cleared. *)
Lemma C8_witness :
  is_running (stopped (moved_to "parking"
                (fallen_back (ready_machine true "park_and_stop"))))
  = Ok false (stopped (moved_to "parking"
                (fallen_back (ready_machine true "park_and_stop")))).
Proof.
  apply (C8_run_returns_not_running parking_env 1
           (ready_machine false "park_and_stop")).
  apply park_and_stop_returns.
Defined.

(** ** Loading the table and building the machine *)

Lemma load_state_table_raises (E : Env) (table_name : string) (w w' : world) e :
  load_state_table E table_name w = Raise e w' →
  ∃ msg, e = InvalidConfig msg.
Proof.
  unfold load_state_table.
  destruct (read_file E _) as [e0|text].
  - case_bool_decide; intros [= <- _]; eauto.
  - destruct (yaml_load E text (w_heap w)) as [e0|[table h]]; [|done].
    intros [= <- _]; eauto.
Qed.

Lemma required_keys_lacking (table : value) (w : world) :
  lacks_key (w_heap w) table →
  ∃ w', required_keys table w = Raise AssertionError w'.
Proof.
  intros (tb & d & -> & Hd & Hkey).
  unfold required_keys, contains, assert_. run_world.
  rewrite Hd. simpl.
  destruct (d !! "states") as [v|] eqn:Hs.
  - destruct Hkey as [|Ht]; [done|].
    rewrite bool_decide_true by eauto. simpl. rewrite Hd. simpl.
    rewrite Ht. rewrite bool_decide_false by (by intros []). simpl. eauto.
  - rewrite bool_decide_false by (by intros []). simpl. eauto.
Qed.

(** C5, as the code has it: when the table cannot be used, [__init__]
    raises and so yields no machine.  When the file cannot be read or its
    text cannot be parsed, the loader raises a ConfigError, which is what
    [__init__] raises; when the text parses to a table that lacks
    'states' or 'transitions', the loader returns it and [__init__]
    raises the AssertionError of lines 29-30. *)
Theorem C5_unusable_table_stops_construction
    (E : Env) (table_name : string) (w : world) :
  unusable E table_name w →
  ∃ e w',
    __init__ E (VStr table_name) w = Raise e w'
    ∧ match read_and_parse E table_name (w_heap w) with
      | inl _ =>
          (∃ msg, e = InvalidConfig msg)
          ∧ ∃ w1, loading E table_name w = Raise e w1
      | inr (table, h) =>
          e = AssertionError
          ∧ ∃ w1, loading E table_name w = Ok table w1 ∧ w_heap w1 = h
      end.
Proof.
  unfold unusable, read_and_parse, __init__, given_table. unfold bind at 1 2.
  unfold logger at 1, modify at 1. fold (loading E table_name w).
  unfold loading, load_state_table. fold (state_table_file E table_name).
  destruct (read_file E (state_table_file E table_name)) as [e|text].
  - intros _. case_bool_decide; eexists _, _;
      (split; [reflexivity|]); (split; [by eexists|by eexists]).
  - simpl. destruct (yaml_load E text (w_heap w)) as [e|[table h]].
    + intros _. eexists _, _. split; [reflexivity|].
      split; [by eexists|by eexists].
    + intros Hkey.
      destruct (required_keys_lacking table
                  (set_heap h (log_to (Log INFO "Loading state table: {}"
                                           [AVal (VStr table_name)]) w)) Hkey)
        as [w' Hw'].
      exists AssertionError, w'. unfold bind. rewrite Hw'.
      split; [done|]. split; [done|]. by eexists.
Qed.

Lemma stateless_table_loads :
  ∃ table w1, loading stateless_env "simple_state_table" empty_world = Ok table w1
              ∧ lacks_key (w_heap w1) table.
Proof.
  eexists _, _. split; [by vm_compute|].
  eexists _, _. split; [reflexivity|]. split; [by vm_compute|].
  left. by vm_compute.
Qed.

(** The file parses to a table without 'states': the loader returns it and
    [__init__] raises AssertionError. *)
Lemma C5_counterexample : ¬ missing_key_is_ConfigError.
Proof.
  intros H.
  destruct (H stateless_env "simple_state_table" empty_world
              stateless_table_loads) as (msg & w' & Hinit).
  vm_compute in Hinit. discriminate Hinit.
Qed.

(** The same table, read through the theorem. *)
Lemma C5_witness :
  ∃ e w',
    __init__ stateless_env (VStr "simple_state_table") empty_world = Raise e w'
    ∧ match read_and_parse stateless_env "simple_state_table"
              (w_heap empty_world) with
      | inl _ =>
          (∃ msg, e = InvalidConfig msg)
          ∧ ∃ w1, loading stateless_env "simple_state_table" empty_world
                  = Raise e w1
      | inr (table, h) =>
          e = AssertionError
          ∧ ∃ w1, loading stateless_env "simple_state_table" empty_world
                  = Ok table w1 ∧ w_heap w1 = h
      end.
Proof.
  apply (C5_unusable_table_stops_construction stateless_env
           "simple_state_table" empty_world).
  vm_compute. eexists _, _. split; [reflexivity|]. split; [reflexivity|].
  left. reflexivity.
Defined.

(** With [plain_env] no file can be read: the loader's ConfigError is
    what [__init__] raises. *)
Example __init___unreadable :
  ∃ w', __init__ plain_env (VStr "simple_state_table") empty_world
        = Raise (InvalidConfig "Problem loading state table yaml file: {} {}") w'.
Proof. eexists. vm_compute. reflexivity. Qed.

(** A table given inline and complete: with [status_env], where every
    state module has an [on_enter], the machine is built in the state the
    table names as initial. *)
Example __init___simple_table :
  match __init__ status_env (VRef 12%positive)
          {| w_heap := simple_heap; w_attrs := ∅; w_log := [] |} with
  | Ok m _ => state m = "parked" ∧ _is_running m = false ∧ _next_state m = None
              ∧ condition_list (m_heap m) 1%positive = Some 3%positive
              ∧ m_heap m !! 3%positive = Some (OList [check_safety; VStr "is_dark"])
  | Raise _ _ => False
  end.
Proof. vm_compute. repeat split. Qed.

(** ** States and their callbacks *)

Ltac run_load_state :=
  unfold _load_state, load_module, try_except, setattr; run_world.

Lemma _load_state_built (E : Env) (table_name state : value) (w : world) module f :
  resolve_name E (state_module_name E (w_heap w) table_name state) = inr module →
  module !! "on_enter" = Some f →
  ∃ w', _load_state E table_name state w
        = Ok (Some (built_state E (w_heap w) state)) w'
        ∧ w_heap w' = w_heap w
        ∧ w_attrs w'
          = <["on_enter_" ++ py_str E (w_heap w) state := f]> (w_attrs w).
Proof.
  intros Hres Hf. run_load_state. rewrite Hres. simpl. rewrite Hf. simpl.
  eexists. split; [reflexivity|done].
Qed.

(** When the module cannot be loaded, the handler logs the warning and
    [return s] finds [s] unbound. *)
Lemma _load_state_unbound (E : Env) (table_name state : value) (w : world) e :
  resolve_name E (state_module_name E (w_heap w) table_name state) = inl e →
  ∃ e' w', _load_state E table_name state w = Raise e' w'
           ∧ (is_Exception e = true → e' = UnboundLocalError "s").
Proof.
  intros Hres. run_load_state. rewrite Hres.
  case_bool_decide as He.
  - subst e. simpl. eexists _, _. split; [reflexivity|done].
  - destruct (is_Exception e) eqn:Hexc; simpl; rewrite ?Hexc;
      eexists _, _; (split; [reflexivity|done]).
Qed.

(** C6, as the code has it: a state whose module is found but has no
    [on_enter] makes [_load_state] return [None] without raising: no
    State object is built, no attribute is added to the machine, and only
    two debug lines are logged. *)
Theorem C6_state_without_on_enter_is_None
    (E : Env) (table_name state : value) (w : world) (module : pymodule) :
  resolve_name E (state_module_name E (w_heap w) table_name state) = inr module →
  module !! "on_enter" = None →
  _load_state E table_name state w
  = Ok None
       (log_to (Log DEBUG "Checking {}" [AModule module])
          (log_to (loading_line state) w)).
Proof.
  intros Hres Hf. run_load_state. rewrite Hres. simpl. by rewrite Hf.
Qed.

(** The module of 'parking' is found and has no [on_enter]: the result is
    [None], not a state. *)
Lemma C6_counterexample : ¬ unresolved_state_is_built.
Proof.
  intros H.
  destruct (H bare_env (VStr "default") (VStr "parking") empty_world eq_refl)
    as (s & w' & Hload).
  vm_compute in Hload. discriminate Hload.
Qed.

(** The same state, read through the theorem. *)
Lemma C6_witness :
  _load_state bare_env (VStr "default") (VStr "parking") empty_world
  = Ok None
       (log_to (Log DEBUG "Checking {}" [AModule ∅])
          (log_to (loading_line (VStr "parking")) empty_world)).
Proof.
  apply (C6_state_without_on_enter_is_None bare_env (VStr "default")
           (VStr "parking") empty_world ∅).
  - reflexivity.
  - reflexivity.
Defined.

(** With no module at all, as for [plain_env], the call raises. *)
Example _load_state_missing_module :
  ∃ w', _load_state plain_env (VStr "default") (VStr "parking") empty_world
        = Raise (UnboundLocalError "s") w'.
Proof. eexists. vm_compute. reflexivity. Qed.

Lemma bind_unit_ret {S} (c : M S unit) (s : S) : (c >> ret tt) s = c s.
Proof. unfold bind, ret. by destruct (c s) as [[] ?|]. Qed.

Lemma bind_ext {S A B} (c : M S A) (k1 k2 : A → M S B) (s : S) :
  (∀ a s', k1 a s' = k2 a s') → bind c k1 s = bind c k2 s.
Proof. intros H. unfold bind. by destruct (c s). Qed.

(** The graph hook swallows what [except Exception] catches. *)
Lemma _update_graph_contained (E : Env) (ev : EventData) (m : machine) :
  match _update_graph E ev m with
  | Ok _ _ => True
  | Raise e _ => is_Exception e = false
  end.
Proof.
  unfold _update_graph, try_except.
  destruct (draw_and_link E ev m) as [|e m1]; [done|].
  by destruct (is_Exception e) eqn:He.
Qed.

(** C7, as the code has it: a state that [_load_state] builds has the
    three callbacks registered in the order graph hook, status hook,
    [on_enter]; entering it calls them in that order.  The graph hook
    swallows its own failure, after which the other two are called; the
    status hook is a bare call of [status], whose exception it passes on. *)
Theorem C7_enter_callbacks_in_order
    (E : Env) (table_name state : value) (w : world)
    (module : pymodule) (f : callable) (ev : EventData) :
  resolve_name E (state_module_name E (w_heap w) table_name state) = inr module →
  module !! "on_enter" = Some f →
  ∃ s w',
    _load_state E table_name state w = Ok (Some s) w'
    ∧ on_enter s = ["_update_graph"; "_update_status";
                    "on_enter_" ++ py_str E (w_heap w) state]
    ∧ w_attrs w' !! ("on_enter_" ++ py_str E (w_heap w) state) = Some f
    ∧ (∀ m, enter E s ev m
            = (_update_graph E ev >> _update_status E ev >>
               call_attribute E ("on_enter_" ++ py_str E (w_heap w) state) ev) m)
    ∧ (∀ m e m1,
         draw_and_link E ev m = Raise e m1 → is_Exception e = true →
         enter E s ev m
         = (_update_status E ev >>
            call_attribute E ("on_enter_" ++ py_str E (w_heap w) state) ev)
             (logged (graph_line e) m1))
    ∧ (∀ m, match _update_graph E ev m with
            | Ok _ _ => True
            | Raise e _ => is_Exception e = false
            end)
    ∧ (∀ m status,
         w_attrs (m_world m) !! "status" = Some status →
         _update_status E ev m = call E status None m).
Proof.
  intros Hres Hf.
  destruct (_load_state_built E table_name state w module f Hres Hf)
    as (w' & Hload & _ & Hattrs).
  exists (built_state E (w_heap w) state), w'.
  assert (Henter : ∀ m, enter E (built_state E (w_heap w) state) ev m
            = (_update_graph E ev >> _update_status E ev >>
               call_attribute E ("on_enter_" ++ py_str E (w_heap w) state) ev) m).
  { intros m. unfold enter. simpl.
    change (callback E "_update_graph" ev) with (_update_graph E ev).
    change (callback E "_update_status" ev) with (_update_status E ev).
    apply bind_ext. intros _ m0. apply bind_ext. intros _ m1.
    apply bind_unit_ret. }
  split; [done|]. split; [done|]. split; [by rewrite Hattrs, lookup_insert_eq|].
  split; [done|]. split; [|split].
  - intros m e m1 Hdraw He. rewrite Henter. unfold bind at 1.
    unfold _update_graph, try_except. by rewrite Hdraw, He.
  - apply _update_graph_contained.
  - intros m status Hstatus. unfold _update_status, lift, getattr. run_world.
    rewrite Hstatus. simpl. by rewrite set_world_same.
Qed.

(** [status()] raises: entering 'ready' ends with that exception, which is
    not an outcome of the custom [on_enter], whatever the machine it would
    be run on. *)
Lemma C7_counterexample : ¬ status_failure_is_contained.
Proof.
  intros H.
  destruct (H status_env (built_state status_env ∅ (VStr "ready"))
              entering_ready observed_machine observed_machine
              observed_machine (RuntimeError "no status") "on_enter_ready"
              eq_refl eq_refl eq_refl eq_refl) as [m2 Hm2].
  change (enter status_env (built_state status_env ∅ (VStr "ready"))
            entering_ready observed_machine)
    with (Raise (A:=unit) (RuntimeError "no status") observed_machine) in Hm2.
  unfold call_attribute, lift, getattr in Hm2. run_world_in Hm2.
  destruct (w_attrs (m_world m2) !! "on_enter_ready"); discriminate Hm2.
Qed.

(** The state 'ready' of the default table, whose module has an [on_enter]. *)
Lemma C7_witness :
  ∃ s w',
    _load_state status_env (VStr "default") (VStr "ready") empty_world
    = Ok (Some s) w'
    ∧ on_enter s = ["_update_graph"; "_update_status";
                    "on_enter_" ++ py_str status_env (w_heap empty_world)
                                          (VStr "ready")]
    ∧ w_attrs w' !! ("on_enter_" ++ py_str status_env (w_heap empty_world)
                                           (VStr "ready"))
      = Some "on_enter"
    ∧ (∀ m, enter status_env s entering_ready m
            = (_update_graph status_env entering_ready >>
               _update_status status_env entering_ready >>
               call_attribute status_env
                 ("on_enter_" ++ py_str status_env (w_heap empty_world)
                                        (VStr "ready"))
                 entering_ready) m)
    ∧ (∀ m e m1,
         draw_and_link status_env entering_ready m = Raise e m1 →
         is_Exception e = true →
         enter status_env s entering_ready m
         = (_update_status status_env entering_ready >>
            call_attribute status_env
              ("on_enter_" ++ py_str status_env (w_heap empty_world)
                                     (VStr "ready"))
              entering_ready)
             (logged (graph_line e) m1))
    ∧ (∀ m, match _update_graph status_env entering_ready m with
            | Ok _ _ => True
            | Raise e _ => is_Exception e = false
            end)
    ∧ (∀ m status,
         w_attrs (m_world m) !! "status" = Some status →
         _update_status status_env entering_ready m
         = call status_env status None m).
Proof.
  apply (C7_enter_callbacks_in_order status_env (VStr "default") (VStr "ready")
           empty_world {["on_enter" := "on_enter"]} "on_enter" entering_ready).
  - reflexivity.
  - reflexivity.
Defined.

(** * Further properties *)

(** ** The run loop: what leaves it and what does not *)

Lemma resolve_caller_after_lookup (m m1 : machine) (v : value) :
  _lookup_trigger m = Ok v m1 →
  resolve_caller m = after_lookup v m1.
Proof.
  intros H. unfold resolve_caller, after_lookup. unfold bind at 1. by rewrite H.
Qed.

Lemma lookup_falls_through (m : machine) (infos : list value) :
  table_transitions m = Some infos →
  (∀ info, info ∈ infos →
     has_endpoints (m_heap m) info
     ∧ matching (m_heap m) (state m) (_next_state m) info = false) →
  _lookup_trigger m = Ok (VStr "parking") (logged (lookup_line m) m).
Proof.
  intros Htable Hno.
  rewrite (_lookup_trigger_scan m infos Htable).
  rewrite <- (app_nil_r infos).
  rewrite scan_transitions_skip; [done|].
  intros info Hin. rewrite logged_heap. by apply Hno.
Qed.

(** X1: when the lookup falls back on 'parking' and the machine has
    neither a 'parking' nor a 'park' attribute, the AttributeError of
    [self.park] leaves [run]: line 101 is outside the [try].  The machine
    is left with its running flag set. *)
Theorem run_without_park_raises
    (E : Env) (n : nat) (m : machine) (infos : list value) :
  _is_running m = true →
  table_transitions m = Some infos →
  (∀ info, info ∈ infos →
     has_endpoints (m_heap m) info
     ∧ matching (m_heap m) (state m) (_next_state m) info = false) →
  w_attrs (m_world m) !! "parking" = None →
  w_attrs (m_world m) !! "park" = None →
  while_running E (S n) m
  = Some (Raise (AttributeError "park") (fallen_back m))
  ∧ _is_running (fallen_back m) = true.
Proof.
  intros Hrun Htable Hno Hparking Hpark. split; [|done].
  simpl. rewrite Hrun. unfold run_body, bind at 1.
  rewrite (resolve_caller_after_lookup m _ _ (lookup_falls_through m infos Htable Hno)).
  unfold after_lookup, lift, truthy, hasattr, getattr. run_world.
  rewrite Hparking. simpl. by rewrite Hpark.
Qed.

Lemma run_without_park_raises_witness :
  while_running plain_env 1 unbound_machine
  = Some (Raise (AttributeError "park") (fallen_back unbound_machine))
  ∧ _is_running (fallen_back unbound_machine) = true.
Proof.
  apply (run_without_park_raises plain_env 0 unbound_machine
           [VRef 1%positive; VRef 2%positive]).
  - reflexivity.
  - reflexivity.
  - intros info Hin. apply elem_of_cons in Hin as [-> | Hin];
      [|apply list_elem_of_singleton in Hin as ->].
    + split; [split; by eexists|reflexivity].
    + split; [split; by eexists|reflexivity].
  - reflexivity.
  - reflexivity.
Defined.

(** X2: an exception that does not derive from Exception, such as
    KeyboardInterrupt, is not caught by the loop: it leaves [run] with the
    machine as the callable left it, nothing logged and the machine not
    stopped by the loop. *)
Theorem run_does_not_catch_base_exceptions
    (E : Env) (n : nat) (m m1 m2 : machine) (c : callable) (e : exn) :
  _is_running m = true →
  resolve_caller m = Ok c m1 →
  call E c None m1 = Raise e m2 →
  is_Exception e = false →
  while_running E (S n) m = Some (Raise e m2).
Proof.
  intros Hrun Hres Hcall He. simpl. rewrite Hrun.
  unfold run_body, bind at 1. rewrite Hres.
  unfold try_except. by rewrite Hcall, He.
Qed.

Lemma run_does_not_catch_base_exceptions_witness :
  while_running interrupt_env 1 (ready_machine true "park")
  = Some (Raise KeyboardInterrupt (fallen_back (ready_machine true "park"))).
Proof.
  apply (run_does_not_catch_base_exceptions interrupt_env 0
           (ready_machine true "park") (fallen_back (ready_machine true "park"))
           (fallen_back (ready_machine true "park")) "park" KeyboardInterrupt).
  - reflexivity.
  - apply ready_machine_falls_back.
  - reflexivity.
  - reflexivity.
Defined.

(** X3: stopping is cooperative.  When the callable of a pass returns,
    the loop goes on from the machine it left; if the callable has called
    [stop_machine], [run] returns with exactly that machine: the pass is
    completed, nothing is logged and nothing else is written. *)
Theorem run_stops_after_the_pass
    (E : Env) (n : nat) (m m1 m2 : machine) (c : callable) :
  _is_running m = true →
  resolve_caller m = Ok c m1 →
  call E c None m1 = Ok tt m2 →
  while_running E (S n) m = while_running E n m2
  ∧ (_is_running m2 = false → while_running E (S n) m = Some (Ok tt m2)).
Proof.
  intros Hrun Hres Hcall.
  assert (while_running E (S n) m = while_running E n m2) as Hstep.
  { simpl. rewrite Hrun. unfold run_body, bind at 1. rewrite Hres.
    unfold try_except. by rewrite Hcall. }
  split; [done|]. intros Hstop. rewrite Hstep. by apply while_running_stopped.
Qed.

Lemma run_stops_after_the_pass_witness :
  while_running parking_env 1 (ready_machine true "park_and_stop")
  = while_running parking_env 0
      (stopped (moved_to "parking" (fallen_back (ready_machine true "park_and_stop"))))
  ∧ (_is_running
       (stopped (moved_to "parking" (fallen_back (ready_machine true "park_and_stop"))))
     = false →
     while_running parking_env 1 (ready_machine true "park_and_stop")
     = Some (Ok tt (stopped (moved_to "parking"
                      (fallen_back (ready_machine true "park_and_stop")))))).
Proof.
  apply (run_stops_after_the_pass parking_env 0
           (ready_machine true "park_and_stop")
           (fallen_back (ready_machine true "park_and_stop"))
           (stopped (moved_to "parking" (fallen_back (ready_machine true "park_and_stop"))))
           "park_and_stop").
  - reflexivity.
  - apply ready_machine_falls_back.
  - reflexivity.
Defined.

(** X4: the loop has no exit of its own.  As long as every pass returns
    normally with the flag still set, no number of passes ends it. *)
Theorem run_loops_until_stopped
    (E : Env) (inv : machine → Prop) :
  (∀ m, inv m → _is_running m = true ∧ ∃ m', run_body E m = Ok tt m' ∧ inv m') →
  ∀ fuel m, inv m → while_running E fuel m = None.
Proof.
  intros Hinv fuel. induction fuel as [|n IH]; intros m Hm;
    destruct (Hinv m Hm) as (Hrun & m' & Hbody & Hm'); simpl; rewrite Hrun.
  - done.
  - rewrite Hbody. by apply IH.
Qed.

Lemma idle_pass (lg : list log_entry) :
  run_body plain_env (ready_machine_logged "park" lg)
  = Ok tt (ready_machine_logged "park"
             (((lg ++ [lookup_line (ready_machine_logged "park" lg)])
               ++ [trigger_line (VStr "parking")]) ++ [parking_line])).
Proof. vm_compute. reflexivity. Qed.

Lemma run_loops_until_stopped_witness :
  while_running plain_env 100 (ready_machine_logged "park" []) = None.
Proof.
  apply (run_loops_until_stopped plain_env
           (fun m => ∃ lg, m = ready_machine_logged "park" lg)).
  - intros m [lg ->]. split; [reflexivity|].
    eexists. split; [apply idle_pass|]. by eexists.
  - by exists [].
Defined.

(** ** Choosing the callable (lines 94-101) *)

(** X6: the trigger the lookup returns is used as an attribute name of
    the machine: when it is a non-empty string and the machine has an
    attribute of that name, this attribute is what the pass calls, and no
    warning is logged. *)
Theorem resolve_caller_uses_the_attribute
    (m m1 : machine) (trigger : string) (c : callable) :
  _lookup_trigger m = Ok (VStr trigger) m1 →
  trigger ≠ "" →
  w_attrs (m_world m1) !! trigger = Some c →
  resolve_caller m = Ok c (logged (trigger_line (VStr trigger)) m1).
Proof.
  intros Hlookup Hne Hattr.
  rewrite (resolve_caller_after_lookup m m1 _ Hlookup).
  unfold after_lookup, lift, truthy, hasattr, getattr. run_world.
  assert (String.eqb trigger "" = false) as -> by by apply String.eqb_neq.
  simpl. rewrite Hattr. simpl. by rewrite Hattr.
Qed.


Lemma resolve_caller_uses_the_attribute_witness :
  resolve_caller (requesting_parking "park_and_stop")
  = Ok "park_and_stop"
       (logged (trigger_line (VStr "park"))
          (logged (lookup_line (requesting_parking "park_and_stop"))
             (requesting_parking "park_and_stop"))).
Proof.
  apply (resolve_caller_uses_the_attribute
           (requesting_parking "park_and_stop")
           (logged (lookup_line (requesting_parking "park_and_stop"))
              (requesting_parking "park_and_stop"))
           "park" "park_and_stop").
  - vm_compute. reflexivity.
  - discriminate.
  - reflexivity.
Defined.


(** ** The scan of the table (lines 181-186) *)

Lemma lift_getitem_missing (m : machine) (t : loc) (d : gmap string value) key :
  m_heap m !! t = Some (ODict d) →
  d !! key = None →
  lift (getitem (VRef t) key) m = Raise (KeyError key) m.
Proof.
  unfold m_heap, lift, getitem. run_world. intros -> Hk. simpl.
  rewrite Hk. simpl. by rewrite set_world_same.
Qed.

Lemma scan_transitions_pass (pre rest : list value) (m : machine) :
  (∀ info, info ∈ pre →
     passed_over (m_heap m) (state m) (_next_state m) info) →
  scan_transitions (pre ++ rest) m = scan_transitions rest m.
Proof.
  induction pre as [|info pre IH]; intros Hpre; [done|].
  destruct (Hpre info) as (s & Hs & Hor); [left|].
  simpl. unfold bind at 1. unfold get at 1.
  unfold bind at 1. rewrite (lift_getitem m info "source" s Hs).
  destruct (py_eq_str s (state m)) eqn:Hsrc.
  - destruct Hor as [|(v & Hv & Hdst)]; [done|].
    unfold bind at 1. rewrite (lift_getitem m info "dest" v Hv).
    rewrite Hdst. apply IH. intros i Hi. apply Hpre. by right.
  - apply IH. intros i Hi. apply Hpre. by right.
Qed.

(** X8: the test of line 182 asks a transition for 'dest' only when its
    'source' is the current state.  Transitions of other sources are
    passed over even if they have no 'dest'; the first transition that
    lacks the key it is asked for ends the lookup with a KeyError of that
    key. *)
Theorem _lookup_trigger_missing_key
    (m : machine) (pre post : list value) (info : value) (key : string) :
  table_transitions m = Some (pre ++ info :: post)%list →
  (∀ i, i ∈ pre → passed_over (m_heap m) (state m) (_next_state m) i) →
  missing_on_scan (m_heap m) (state m) (_next_state m) info key →
  _lookup_trigger m = Raise (KeyError key) (logged (lookup_line m) m).
Proof.
  intros Htable Hpre [(t & d & -> & Hd) Hmiss].
  rewrite (_lookup_trigger_scan m _ Htable).
  rewrite scan_transitions_pass by done.
  set (m' := logged (lookup_line m) m).
  assert (Hd' : m_heap m' !! t = Some (ODict d)) by done.
  simpl. unfold bind at 1. unfold get at 1. unfold bind at 1.
  unfold entry in Hmiss. rewrite Hd in Hmiss.
  destruct Hmiss as [[Hs ->] | [(s & Hs & Hsrc & Hv & ->) | (Hmatch & Htr & ->)]].
  - by rewrite (lift_getitem_missing m' t d "source" Hd' Hs).
  - rewrite (lift_getitem m' (VRef t) "source" s)
      by (unfold entry; by rewrite Hd').
    change (state m') with (state m). rewrite Hsrc.
    unfold bind at 1. by rewrite (lift_getitem_missing m' t d "dest" Hd' Hv).
  - unfold matching, entry in Hmatch. rewrite Hd in Hmatch.
    destruct (d !! "source") as [s|] eqn:Hs; [|done].
    destruct (d !! "dest") as [v|] eqn:Hv; [|done].
    apply andb_prop in Hmatch as [Hsrc Hdst].
    rewrite (lift_getitem m' (VRef t) "source" s)
      by (unfold entry; by rewrite Hd').
    change (state m') with (state m). rewrite Hsrc.
    unfold bind at 1.
    rewrite (lift_getitem m' (VRef t) "dest" v)
      by (unfold entry; by rewrite Hd').
    change (_next_state m') with (_next_state m). rewrite Hdst.
    by apply (lift_getitem_missing m' t d).
Qed.

Lemma _lookup_trigger_missing_key_witness :
  _lookup_trigger broken_machine
  = Raise (KeyError "source") (logged (lookup_line broken_machine) broken_machine).
Proof.
  apply (_lookup_trigger_missing_key broken_machine
           [VRef 1%positive] [] (VRef 2%positive) "source").
  - reflexivity.
  - intros i Hi. apply list_elem_of_singleton in Hi as ->.
    exists (VStr "parked"). split; [reflexivity|]. left. reflexivity.
  - split.
    + eexists _, _. split; reflexivity.
    + left. split; reflexivity.
Defined.

(** ** Loading transitions: errors and what is left alone *)

(** X9: a transition that is not a dictionary (a string of the YAML
    list, say) makes [_load_transition] raise the AttributeError of
    [transition.get]; nothing but the first debug line has happened. *)
Theorem _load_transition_not_a_dict (E : Env) (transition : value) (w : world) :
  (∀ t d, transition = VRef t → w_heap w !! t ≠ Some (ODict d)) →
  _load_transition E transition w
  = Raise (AttributeError "get")
          (log_to (Log DEBUG "Loading transition: {}" [AVal transition]) w).
Proof.
  intros Hnot. unfold _load_transition. run_world.
  destruct transition as [| s | t]; try done.
  destruct (w_heap w !! t) as [[xs|d]|] eqn:Ht; try done.
  by destruct (Hnot t d).
Qed.

Lemma _load_transition_not_a_dict_witness :
  _load_transition plain_env (VStr "park") two_transitions
  = Raise (AttributeError "get")
          (log_to (Log DEBUG "Loading transition: {}" [AVal (VStr "park")])
                  two_transitions).
Proof.
  apply (_load_transition_not_a_dict plain_env (VStr "park") two_transitions).
  intros t d Ht. discriminate Ht.
Defined.



(** ** The loader and the module resolver *)

(** X11: [load_state_table] raises nothing but InvalidConfig, whatever
    reading or parsing raised (the bare [except] also takes what does not
    derive from Exception), and then leaves the world as it was; when it
    returns, only the heap may have changed. *)
Theorem load_state_table_outcomes (E : Env) (table_name : string) (w : world) :
  match load_state_table E table_name w with
  | Raise e w' => (∃ msg, e = InvalidConfig msg) ∧ w' = w
  | Ok _ w' => w_attrs w' = w_attrs w ∧ w_log w' = w_log w
  end.
Proof.
  unfold load_state_table.
  destruct (read_file E _) as [e|text].
  - case_bool_decide; (split; [by eexists|done]).
  - destruct (yaml_load E text (w_heap w)) as [e|[table h]].
    + split; [by eexists|done].
    + done.
Qed.

(** X12: [load_module] turns the ImportError of [resolve_name] into a
    NotFound that carries the module name, lets every other exception
    through as it is, and returns the module otherwise; it never raises
    ImportError itself. *)
Theorem load_module_outcomes (E : Env) (module_name : string) (w : world) :
  match resolve_name E module_name with
  | inr module => load_module E module_name w = Ok module w
  | inl e =>
      ∃ e', load_module E module_name w = Raise e' w
            ∧ e' ≠ ImportError
            ∧ (e = ImportError → e' = NotFound module_name)
            ∧ (e ≠ ImportError → e' = e)
  end.
Proof.
  unfold load_module. destruct (resolve_name E module_name) as [e|module]; [|done].
  case_bool_decide as He.
  - exists (NotFound module_name). by repeat split.
  - exists e. by repeat split.
Qed.

(** ** Loading the states *)

(** The outcome of [_load_state] in each case of the resolver. *)
Lemma _load_state_shape (E : Env) (table_name state : value) (w : world) :
  match resolve_name E (state_module_name E (w_heap w) table_name state) with
  | inr module =>
      ∃ w',
        _load_state E table_name state w
        = Ok (match module !! "on_enter" with
              | Some _ => Some (built_state E (w_heap w) state)
              | None => None
              end) w'
        ∧ w_heap w' = w_heap w
        ∧ ∀ k, k ≠ "on_enter_" ++ py_str E (w_heap w) state →
               w_attrs w' !! k = w_attrs w !! k
  | inl e =>
      ∃ w',
        _load_state E table_name state w
        = Raise (load_state_error
                   (state_module_name E (w_heap w) table_name state) e) w'
        ∧ w_heap w' = w_heap w ∧ w_attrs w' = w_attrs w
  end.
Proof.
  destruct (resolve_name E _) as [e|module] eqn:Hres.
  - unfold load_state_error. run_load_state. rewrite Hres.
    case_bool_decide as He; simpl.
    + eexists. split; [reflexivity|done].
    + destruct (is_Exception e) eqn:Hexc; simpl; rewrite ?Hexc;
        eexists; (split; [reflexivity|done]).
  - run_load_state. rewrite Hres. simpl.
    destruct (module !! "on_enter") as [f|]; simpl.
    + eexists. split; [reflexivity|]. split; [done|].
      intros k Hk. simpl. by rewrite lookup_insert_ne.
    + eexists. split; [reflexivity|done].
Qed.

(** X13: when the module of a state cannot be loaded and what the loader
    raises derives from Exception (the NotFound made of an ImportError,
    or the exception of [resolve_name] itself), [_load_state] catches it,
    logs the warning "Can't load state modules" with the state and the
    exception after the first debug line, and then raises the
    UnboundLocalError of [return s]: [s = None] comes after [load_module]
    inside the [try] block.  Nothing else has changed. *)
Theorem _load_state_missing_module_raises
    (E : Env) (table_name state : value) (w : world) (e : exn) :
  resolve_name E (state_module_name E (w_heap w) table_name state) = inl e →
  is_Exception e = true →
  _load_state E table_name state w
  = Raise (UnboundLocalError "s")
      (log_to (Log WARNING ("Can't load state modules: {}" ++ tab ++ "{}")
                 [AVal state;
                  AExc (if bool_decide (e = ImportError)
                        then NotFound (state_module_name E (w_heap w)
                                         table_name state)
                        else e)])
         (log_to (loading_line state) w)).
Proof.
  intros Hres Hexc. run_load_state. rewrite Hres.
  case_bool_decide as He; simpl; [done|]. by rewrite Hexc.
Qed.

Lemma _load_state_missing_module_raises_witness :
  _load_state plain_env (VStr "default") (VStr "parking") empty_world
  = Raise (UnboundLocalError "s")
      (log_to (Log WARNING ("Can't load state modules: {}" ++ tab ++ "{}")
                 [AVal (VStr "parking");
                  AExc (if bool_decide (ImportError = ImportError)
                        then NotFound (state_module_name plain_env
                                         (w_heap empty_world) (VStr "default")
                                         (VStr "parking"))
                        else ImportError)])
         (log_to (loading_line (VStr "parking")) empty_world)).
Proof.
  apply (_load_state_missing_module_raises plain_env (VStr "default")
           (VStr "parking") empty_world ImportError).
  - reflexivity.
  - reflexivity.
Defined.

(** X14: whatever its outcome, [_load_state] leaves the heap alone, and
    with it the table and every transition; of the attributes of the
    machine it writes at most ['on_enter_<state>']. *)
Theorem _load_state_writes_one_attribute
    (E : Env) (table_name state : value) (w : world) :
  match _load_state E table_name state w with
  | Ok _ w' | Raise _ w' =>
      w_heap w' = w_heap w
      ∧ ∀ k, k ≠ "on_enter_" ++ py_str E (w_heap w) state →
             w_attrs w' !! k = w_attrs w !! k
  end.
Proof.
  pose proof (_load_state_shape E table_name state w) as H.
  destruct (resolve_name E _) as [e|module];
    destruct H as (w' & -> & Hh & Ha); [|done].
  split; [done|]. intros k _. by rewrite Ha.
Qed.

(** X15: the list of states (line 41) is loaded only if every state has
    its module.  If the module of one of them cannot be imported, and
    the modules before it can, the comprehension raises the
    UnboundLocalError of that state, so that [__init__] cannot pass this
    line. *)
Theorem states_need_their_modules
    (E : Env) (table_name : value) (before after : list value) (state : value) :
  ∀ w,
    (∀ s, s ∈ before →
       ∃ module, resolve_name E (state_module_name E (w_heap w) table_name s)
                 = inr module) →
    resolve_name E (state_module_name E (w_heap w) table_name state)
    = inl ImportError →
    ∃ w', comprehension (_load_state E table_name) (before ++ state :: after) w
          = Raise (UnboundLocalError "s") w'.
Proof.
  induction before as [|s before IH]; intros w Hbefore Hstate.
  - pose proof (_load_state_shape E table_name state w) as H.
    rewrite Hstate in H. destruct H as (w' & Hrun & _).
    exists w'. simpl. unfold bind at 1. by rewrite Hrun.
  - pose proof (_load_state_shape E table_name s w) as H.
    destruct (Hbefore s) as [module Hm]; [left|]. rewrite Hm in H.
    destruct H as (w1 & Hrun & Hh & _).
    destruct (IH w1) as [w' Hw'].
    + intros s' Hs'. rewrite Hh. apply Hbefore. by right.
    + by rewrite Hh.
    + exists w'. simpl. unfold bind at 1. rewrite Hrun.
      unfold bind at 1. by rewrite Hw'.
Qed.

Lemma states_need_their_modules_witness :
  ∃ w', comprehension (_load_state ready_only_env (VStr "default"))
          ([VStr "ready"] ++ VStr "parking" :: [VStr "parked"]) empty_world
        = Raise (UnboundLocalError "s") w'.
Proof.
  apply (states_need_their_modules ready_only_env (VStr "default")
           [VStr "ready"] [VStr "parked"] (VStr "parking") empty_world).
  - intros s Hs. apply list_elem_of_singleton in Hs as ->.
    eexists. reflexivity.
  - reflexivity.
Defined.

(** ** Building the machine *)

Lemma bind_Ok_inv {S A B} (c : M S A) (k : A → M S B) (s s2 : S) (b : B) :
  bind c k s = Ok b s2 → ∃ a s1, c s = Ok a s1 ∧ k a s1 = Ok b s2.
Proof. unfold bind. destruct (c s) as [a s1|]; [eauto|done]. Qed.

(** X16: a machine that [__init__] has built is not running and has no
    next state; its table is the one given or loaded, and that table has
    passed the two assertions on 'states' and 'transitions'.  The world
    returned is the machine's own. *)
Theorem __init___postcondition
    (E : Env) (arg : value) (w w' : world) (m : machine) :
  __init__ E arg w = Ok m w' →
  _is_running m = false
  ∧ _next_state m = None
  ∧ m_world m = w'
  ∧ ∃ w0 w1,
      given_table E arg w = Ok (_state_machine_table m) w0
      ∧ required_keys (_state_machine_table m) w0 = Ok tt w1.
Proof.
  unfold __init__. intros H.
  apply bind_Ok_inv in H as (table & w0 & Hgiven & H).
  apply bind_Ok_inv in H as ([] & w1 & Hkeys & H).
  do 12 (apply bind_Ok_inv in H as (? & ? & _ & H)).
  apply bind_Ok_inv in H as (wl & ? & Hget & H).
  injection Hget as <- <-. injection H as <- <-.
  repeat split; eauto.
Qed.

Lemma __init___postcondition_witness :
  ∃ m w',
    __init__ status_env (VRef 12%positive)
      {| w_heap := simple_heap; w_attrs := ∅; w_log := [] |} = Ok m w'
    ∧ _is_running m = false
    ∧ _next_state m = None
    ∧ m_world m = w'
    ∧ ∃ w0 w1,
        given_table status_env (VRef 12%positive)
          {| w_heap := simple_heap; w_attrs := ∅; w_log := [] |}
        = Ok (_state_machine_table m) w0
        ∧ required_keys (_state_machine_table m) w0 = Ok tt w1.
Proof.
  destruct (__init__ status_env (VRef 12%positive)
              {| w_heap := simple_heap; w_attrs := ∅; w_log := [] |})
    as [m w'|e w'] eqn:Hinit; [|by vm_compute in Hinit].
  exists m, w'. split; [reflexivity|].
  exact (__init___postcondition status_env (VRef 12%positive) _ w' m Hinit).
Defined.

(** X17: a table that is [None], as an empty YAML file parses to, gets
    past the loader and fails at the first assertion with the TypeError of
    ['states' in None]: neither a ConfigError nor an AssertionError. *)
Theorem __init___none_table (E : Env) (arg : value) (w w1 : world) :
  given_table E arg w = Ok VNone w1 →
  __init__ E arg w = Raise TypeError w1.
Proof.
  intros H. unfold __init__, bind at 1. by rewrite H.
Qed.

Lemma __init___none_table_witness :
  __init__ empty_file_env (VStr "simple_state_table") empty_world
  = Raise TypeError
      (log_to (Log INFO "Loading state table: {}" [AVal (VStr "simple_state_table")])
              empty_world).
Proof.
  apply (__init___none_table empty_file_env (VStr "simple_state_table")
           empty_world).
  vm_compute. reflexivity.
Defined.

(** ** Entering a state *)

(** X18: the class does not define [status] itself.  On a machine that
    has no such attribute, entering a state built by [_load_state] ends,
    once the graph hook is done, with the AttributeError of
    [self.status]; the state's own [on_enter] is not run. *)
Theorem enter_without_status
    (E : Env) (h : gmap loc obj) (state : value) (ev : EventData)
    (m m0 : machine) :
  _update_graph E ev m = Ok tt m0 →
  w_attrs (m_world m0) !! "status" = None →
  enter E (built_state E h state) ev m = Raise (AttributeError "status") m0.
Proof.
  intros Hgraph Hstatus. unfold enter. simpl. unfold bind at 1.
  change (callback E "_update_graph" ev) with (_update_graph E ev).
  rewrite Hgraph. unfold bind at 1.
  change (callback E "_update_status" ev) with (_update_status E ev).
  unfold _update_status, lift, getattr. run_world. rewrite Hstatus. simpl.
  by rewrite set_world_same.
Qed.

Lemma enter_without_status_witness :
  enter plain_env (built_state plain_env ∅ (VStr "ready")) entering_ready
    (ready_machine true "park")
  = Raise (AttributeError "status") (ready_machine true "park").
Proof.
  apply (enter_without_status plain_env ∅ (VStr "ready") entering_ready
           (ready_machine true "park") (ready_machine true "park")).
  - reflexivity.
  - reflexivity.
Defined.

(** ** The logger module *)

Ltac run_logger :=
  unfold Logger_init, getLogger, level_of, on_logger;
  cbv beta delta [bind ret raise modify]; simpl.

(** X19: [log_levels] knows 'debug', 'error' and 'info' only.  Making a
    [Logger] with any other level, 'warning' and 'critical' included,
    raises the KeyError of that level before a file is opened: no logger
    has gained a handler. *)
Theorem Logger_init_unknown_level
    (make_formatter : string → exn + unit)
    (can_open : string → bool) (log_file profile log_level format : string)
    (reg : gmap string PyLogger) :
  log_levels !! log_level = None →
  ∃ reg',
    Logger_init make_formatter can_open log_file profile log_level format reg
    = Raise (KeyError log_level) reg'
    ∧ ∀ name, handlers_of reg' name = handlers_of reg name.
Proof.
  intros Hlevel. run_logger. rewrite Hlevel.
  destruct (reg !! profile) as [l|] eqn:Hp; simpl.
  - by exists reg.
  - eexists. split; [reflexivity|]. intros name. unfold handlers_of.
    destruct (decide (profile = name)) as [<-|Hne].
    + by rewrite lookup_insert_eq, Hp.
    + by rewrite lookup_insert_ne.
Qed.

Lemma Logger_init_unknown_level_witness :
  ∃ reg',
    Logger_init (fun _ => inr tt) (fun _ => true) "panoptes.log"
      "PanoptesLogger" "warning" "%(message)s" ∅
    = Raise (KeyError "warning") reg'
    ∧ ∀ name, handlers_of reg' name = handlers_of ∅ name.
Proof.
  apply (Logger_init_unknown_level (fun _ => inr tt) (fun _ => true)
           "panoptes.log" "PanoptesLogger" "warning" "%(message)s" ∅).
  reflexivity.
Defined.

Lemma Logger_init_ok
    (make_formatter : string → exn + unit)
    (can_open : string → bool) (log_file profile log_level format : string)
    (reg : gmap string PyLogger) (n : nat) :
  log_levels !! log_level = Some n →
  make_formatter format = inr tt →
  can_open log_file = true →
  ∃ reg',
    Logger_init make_formatter can_open log_file profile log_level format reg
    = Ok {| logger_profile := profile; file_name := log_file;
            log_format := format;
            log_fh := {| fh_file := log_file; fh_level := n;
                         fh_format := format |} |} reg'
    ∧ reg' !! profile
      = Some {| py_level := n;
                py_handlers := handlers_of reg profile
                               ++ [{| fh_file := log_file; fh_level := n;
                                      fh_format := format |}] |}
    ∧ ∀ name, name ≠ profile → reg' !! name = reg !! name.
Proof.
  intros Hlevel Hformat Hopen. run_logger. rewrite Hlevel, Hformat, Hopen.
  unfold handlers_of.
  destruct (reg !! profile) as [l|] eqn:Hp; simpl.
  - rewrite Hp. simpl. rewrite lookup_insert_eq. simpl.
    eexists. split; [reflexivity|]. rewrite lookup_insert_eq.
    split; [done|]. intros name Hne. by rewrite !lookup_insert_ne.
  - rewrite lookup_insert_eq. simpl. rewrite lookup_insert_eq. simpl.
    eexists. split; [reflexivity|]. rewrite lookup_insert_eq.
    split; [done|]. intros name Hne. by rewrite !lookup_insert_ne.
Qed.

(** X20: two [Logger] objects made for one profile, with formats that
    [logging.Formatter] accepts and files that can be opened, share the
    logger of that name: after the second construction it has the
    handlers of both, after those it had, and the level of the second; the
    loggers of other names are untouched. *)
Theorem Logger_init_twice_shares_the_logger
    (make_formatter : string → exn + unit)
    (can_open : string → bool) (profile : string)
    (file1 level1 format1 file2 level2 format2 : string)
    (reg : gmap string PyLogger) (n1 n2 : nat) :
  log_levels !! level1 = Some n1 →
  log_levels !! level2 = Some n2 →
  make_formatter format1 = inr tt →
  make_formatter format2 = inr tt →
  can_open file1 = true →
  can_open file2 = true →
  ∃ l1 reg1 l2 reg2,
    Logger_init make_formatter can_open file1 profile level1 format1 reg
    = Ok l1 reg1
    ∧ Logger_init make_formatter can_open file2 profile level2 format2 reg1
      = Ok l2 reg2
    ∧ reg2 !! profile
      = Some {| py_level := n2;
                py_handlers := handlers_of reg profile
                               ++ [log_fh l1; log_fh l2] |}
    ∧ ∀ name, name ≠ profile → reg2 !! name = reg !! name.
Proof.
  intros H1 H2 F1 F2 O1 O2.
  destruct (Logger_init_ok make_formatter can_open file1 profile level1
              format1 reg n1 H1 F1 O1) as (reg1 & R1 & P1 & K1).
  destruct (Logger_init_ok make_formatter can_open file2 profile level2
              format2 reg1 n2 H2 F2 O2) as (reg2 & R2 & P2 & K2).
  eexists _, reg1, _, reg2. split; [exact R1|]. split; [exact R2|]. split.
  - rewrite P2. unfold handlers_of at 1. rewrite P1. simpl.
    by rewrite <- app_assoc.
  - intros name Hne. by rewrite K2, K1.
Qed.

Lemma Logger_init_twice_shares_the_logger_witness :
  ∃ l1 reg1 l2 reg2,
    Logger_init (fun _ => inr tt) (fun _ => true) "panoptes.log"
      "PanoptesLogger" "debug" "%(message)s" ∅ = Ok l1 reg1
    ∧ Logger_init (fun _ => inr tt) (fun _ => true) "panoptes.log"
        "PanoptesLogger" "error" "%(message)s" reg1 = Ok l2 reg2
    ∧ reg2 !! "PanoptesLogger"
      = Some {| py_level := 40;
                py_handlers := handlers_of ∅ "PanoptesLogger"
                               ++ [log_fh l1; log_fh l2] |}
    ∧ ∀ name, name ≠ "PanoptesLogger" → reg2 !! name = (∅ : gmap string PyLogger) !! name.
Proof.
  apply (Logger_init_twice_shares_the_logger (fun _ => inr tt) (fun _ => true)
           "PanoptesLogger"
           "panoptes.log" "debug" "%(message)s"
           "panoptes.log" "error" "%(message)s" ∅ 10 40).
  - reflexivity.
  - reflexivity.
  - reflexivity.
  - reflexivity.
  - reflexivity.
  - reflexivity.
Defined.

(** X21: when the format is accepted and the file cannot be opened, the
    construction fails with OSError after the level was set: the logger of
    the profile has its new level, and no handler is added. *)
Theorem Logger_init_unopenable_file
    (make_formatter : string → exn + unit)
    (can_open : string → bool) (log_file profile log_level format : string)
    (reg : gmap string PyLogger) (n : nat) :
  log_levels !! log_level = Some n →
  make_formatter format = inr tt →
  can_open log_file = false →
  ∃ reg',
    Logger_init make_formatter can_open log_file profile log_level format reg
    = Raise OSError reg'
    ∧ reg' !! profile
      = Some {| py_level := n; py_handlers := handlers_of reg profile |}
    ∧ ∀ name, name ≠ profile → reg' !! name = reg !! name.
Proof.
  intros Hlevel Hformat Hopen. run_logger. rewrite Hlevel, Hformat, Hopen.
  unfold handlers_of.
  destruct (reg !! profile) as [l|] eqn:Hp; simpl.
  - rewrite Hp. simpl.
    eexists. split; [reflexivity|]. rewrite lookup_insert_eq.
    split; [done|]. intros name Hne. by rewrite !lookup_insert_ne.
  - rewrite lookup_insert_eq. simpl.
    eexists. split; [reflexivity|]. rewrite lookup_insert_eq.
    split; [done|]. intros name Hne. by rewrite !lookup_insert_ne.
Qed.

Lemma Logger_init_unopenable_file_witness :
  ∃ reg',
    Logger_init (fun _ => inr tt) (fun _ => false) "/nowhere/panoptes.log"
      "PanoptesLogger" "info" "%(message)s" ∅
    = Raise OSError reg'
    ∧ reg' !! "PanoptesLogger"
      = Some {| py_level := 20; py_handlers := handlers_of ∅ "PanoptesLogger" |}
    ∧ ∀ name, name ≠ "PanoptesLogger" → reg' !! name = (∅ : gmap string PyLogger) !! name.
Proof.
  apply (Logger_init_unopenable_file (fun _ => inr tt) (fun _ => false)
           "/nowhere/panoptes.log" "PanoptesLogger" "info" "%(message)s" ∅ 20).
  - reflexivity.
  - reflexivity.
  - reflexivity.
Defined.

(** ** The condition lists of the machine that was built *)

Lemma required_keys_Ok (table : value) (w w1 : world) :
  required_keys table w = Ok tt w1 → w1 = w.
Proof.
  unfold required_keys, contains, assert_. run_world. intros H.
  repeat case_match; simplify_eq; done.
Qed.

Lemma hasattr_Ok (v : value) (w w1 : world) (b : bool) :
  hasattr v w = Ok b w1 → w1 = w.
Proof.
  unfold hasattr. run_world. intros H. repeat case_match; simplify_eq; done.
Qed.

Lemma dict_get_Ok (d : value) key dflt (w w1 : world) (v : value) :
  dict_get d key dflt w = Ok v w1 → w1 = w.
Proof.
  run_world. intros H. repeat case_match; simplify_eq; done.
Qed.

Lemma getitem_Ok (tb : loc) (d : gmap string value) key (w w1 : world) (v : value) :
  w_heap w !! tb = Some (ODict d) →
  getitem (VRef tb) key w = Ok v w1 → w1 = w ∧ d !! key = Some v.
Proof.
  run_world. intros ->. simpl. destruct (d !! key); intros H; by simplify_eq.
Qed.

Lemma py_iter_Ok (tl : loc) (xs ys : list value) (w w1 : world) :
  w_heap w !! tl = Some (OList xs) →
  py_iter (VRef tl) w = Ok ys w1 → w1 = w ∧ ys = xs.
Proof.
  unfold py_iter. run_world. intros ->. simpl. intros H. by simplify_eq.
Qed.

Lemma py_iter_Ok_world (v : value) (ys : list value) (w w1 : world) :
  py_iter v w = Ok ys w1 → w1 = w.
Proof.
  unfold py_iter. run_world. intros H. repeat case_match; simplify_eq; done.
Qed.

Lemma get_or_new_list_extends (d : value) key (w w1 : world) (v : value) :
  get_or_new_list d key w = Ok v w1 → w_heap w ⊆ w_heap w1.
Proof.
  run_world. intros H. repeat case_match; simplify_eq; try done.
  simpl. apply insert_subseteq, fresh_unused.
Qed.

Lemma load_states_heap (E : Env) (table_name : value) (names : list value) :
  ∀ w w1 states,
    comprehension (_load_state E table_name) names w = Ok states w1 →
    w_heap w1 = w_heap w.
Proof.
  induction names as [|s names IH]; intros w w1 states; simpl.
  - unfold ret. intros H. by simplify_eq.
  - intros H. apply bind_Ok_inv in H as (st & wa & Hs & H).
    apply bind_Ok_inv in H as (sts & wb & Hrest & H).
    unfold ret in H. simplify_eq.
    rewrite (IH _ _ _ Hrest).
    pose proof (_load_state_shape E table_name s w) as Hshape.
    destruct (resolve_name E _) as [e|module];
      destruct Hshape as (w' & Hrun & Hh & _); rewrite Hrun in Hs; by simplify_eq.
Qed.

Lemma condition_list_weaken (h h' : gmap loc obj) (t l : loc) :
  h ⊆ h' → condition_list h t = Some l → condition_list h' t = Some l.
Proof.
  intros Hsub. unfold condition_list. intros H.
  destruct (h !! t) as [[|d]|] eqn:Ht; try done.
  rewrite (lookup_weaken h h' t _ Ht Hsub).
  destruct (d !! "conditions") as [[| |a]|]; try done.
  destruct (h !! a) as [[xs|]|] eqn:Ha; try done.
  by rewrite (lookup_weaken h h' a _ Ha Hsub).
Qed.

(** The heap of the machine that was built holds what loading the
    transitions of the table has left. *)
Lemma __init___heap
    (E : Env) (arg table : value) (w w0 w' : world) (ts : list loc) (m : machine) :
  listify_contract E →
  collaborators_keep_heap E →
  given_table E arg w = Ok table w0 →
  table_of (w_heap w0) table ts →
  __init__ E arg w = Ok m w' →
  ∃ wa wb,
    w_heap wa = w_heap w0
    ∧ load_transitions E (VRef <$> ts) wa = Ok (VRef <$> ts) wb
    ∧ w_heap wb ⊆ m_heap m.
Proof.
  intros HL [Hdb Hmachine] Hgiven
    (tb & d & tl & -> & Htb & Htl & Hlist & Htidy & _) H.
  unfold __init__ in H.
  apply bind_Ok_inv in H as (table' & w0' & Hg & H).
  rewrite Hgiven in Hg. injection Hg as <- <-.
  apply bind_Ok_inv in H as ([] & w1 & Hkeys & H).
  apply required_keys_Ok in Hkeys as ->.
  apply bind_Ok_inv in H as (has_db & w2 & Hhas & H).
  apply hasattr_Ok in Hhas as ->.
  apply bind_Ok_inv in H as (? & w3 & Hstep & H).
  assert (w_heap w3 = w_heap w0) as H3.
  { destruct has_db; [unfold ret in Hstep; by simplify_eq|].
    apply bind_Ok_inv in Hstep as (db & wd & Hmongo & Hset).
    specialize (Hdb w0). rewrite Hmongo in Hdb.
    unfold setattr, modify in Hset. simplify_eq. done. }
  apply bind_Ok_inv in H as (tn & w4 & Hname & H).
  apply dict_get_Ok in Hname as ->.
  apply bind_Ok_inv in H as (raw & w5 & Hraw & H).
  apply (getitem_Ok tb d) in Hraw as [-> Hraw]; [|by rewrite H3].
  rewrite Htl in Hraw. injection Hraw as <-.
  apply bind_Ok_inv in H as (raw_ts & w6 & Hiter & H).
  apply (py_iter_Ok tl (VRef <$> ts)) in Hiter as [-> ->]; [|by rewrite H3].
  apply bind_Ok_inv in H as (loaded_ts & w7 & Hload & H).
  assert (tidy (w_heap w3) ts) as Htidy3 by (by rewrite H3).
  destruct (load_transitions_spec E HL ts w3 Htidy3) as (w7' & Hrun & _).
  unfold load_transitions in Hrun. rewrite Hrun in Hload.
  injection Hload as <- <-.
  apply bind_Ok_inv in H as (names & w8 & Hnames & H).
  apply get_or_new_list_extends in Hnames.
  apply bind_Ok_inv in H as (state_names & w9 & Hiter & H).
  apply py_iter_Ok_world in Hiter as ->.
  apply bind_Ok_inv in H as (states & w10 & Hstates & H).
  apply load_states_heap in Hstates.
  apply bind_Ok_inv in H as (initial & w11 & Hini & H).
  apply dict_get_Ok in Hini as ->.
  apply bind_Ok_inv in H as (st & w12 & Hm & H).
  specialize (Hmachine states (VRef <$> ts) initial w10). rewrite Hm in Hmachine.
  apply bind_Ok_inv in H as ([] & w13 & Hlog & H).
  unfold logger, modify in Hlog. injection Hlog as <-.
  apply bind_Ok_inv in H as (wl & w14 & Hget & H).
  unfold get in Hget. injection Hget as <- <-.
  unfold ret in H. injection H as <- <-.
  exists w3, w7'. split; [done|]. split; [done|].
  unfold m_heap. simpl. rewrite Hmachine, Hstates. done.
Qed.

Lemma sample_env_keeps_heap behaviour modules files parse :
  collaborators_keep_heap (sample_env behaviour modules files parse).
Proof.
  split; [done|]. intros states ts initial w. simpl. by destruct initial.
Qed.

Lemma tidy_two (h : gmap loc obj) (d1 d2 : gmap string value) :
  h !! 1%positive = Some (ODict d1) →
  h !! 2%positive = Some (ODict d2) →
  (∀ a, d1 !! "conditions" = Some (VRef a) → is_Some (h !! a)) →
  (∀ a, d2 !! "conditions" = Some (VRef a) → is_Some (h !! a)) →
  tidy h [1%positive; 2%positive].
Proof.
  intros H1 H2 A1 A2. split.
  - apply (bool_decide_unpack _). by vm_compute.
  - intros t Ht. apply elem_of_cons in Ht as [-> | Ht];
      [|apply list_elem_of_singleton in Ht as ->]; eauto.
Qed.

Lemma simple_table_of :
  table_of (w_heap simple_world) (VRef 12%positive) [1%positive; 2%positive].
Proof.
  exists 12%positive, simple_table, 10%positive.
  repeat (split; [reflexivity|]).
  split.
  - apply (tidy_two _ get_ready_transition park_transition);
      [reflexivity|reflexivity| |].
    + intros a Ha. vm_compute in Ha. injection Ha as <-. by eexists.
    + intros a Ha. vm_compute in Ha. done.
  - intros t Ht. apply elem_of_cons in Ht as [-> | Ht];
      [|apply list_elem_of_singleton in Ht as ->]; by vm_compute.
Qed.

Lemma shared_table_of :
  table_of (w_heap shared_world) (VRef 12%positive) [1%positive; 2%positive].
Proof.
  exists 12%positive, simple_table, 10%positive.
  repeat (split; [reflexivity|]).
  split.
  - apply (tidy_two _ get_ready_transition
             (<["conditions" := VRef 3%positive]> park_transition));
    [reflexivity|reflexivity| |].
    + intros a Ha. vm_compute in Ha. injection Ha as <-. by eexists.
    + intros a Ha. vm_compute in Ha. injection Ha as <-. by eexists.
  - intros t Ht. apply elem_of_cons in Ht as [-> | Ht];
      [|apply list_elem_of_singleton in Ht as ->]; by vm_compute.
Qed.

(** C1, as the code has it: in the machine that [__init__] has built
    from a well-formed table, every transition refers to a condition list
    whose first element is 'check_safety'.  The list is the one the table
    gave, changed in place, or a new object for a transition that came
    without one.  So two distinct transitions refer to the same list only
    if the table handed in already made them share it; transitions that
    came with lists of their own, or with none, have lists of their own:
    replacing the content of one leaves the other as it was. *)
Theorem C1_constructed_transitions_start_with_check_safety
    (E : Env) (arg table : value) (w w0 w' : world) (ts : list loc)
    (m : machine) :
  listify_contract E →
  collaborators_keep_heap E →
  given_table E arg w = Ok table w0 →
  table_of (w_heap w0) table ts →
  __init__ E arg w = Ok m w' →
  (∀ t, t ∈ ts →
     ∃ l xs, condition_list (m_heap m) t = Some l
             ∧ m_heap m !! l = Some (OList (check_safety :: xs))
             ∧ (condition_list (w_heap w0) t = Some l ∨ w_heap w0 !! l = None))
  ∧ (∀ t1 t2 l, t1 ∈ ts → t2 ∈ ts → t1 ≠ t2 →
       condition_list (m_heap m) t1 = Some l →
       condition_list (m_heap m) t2 = Some l →
       condition_list (w_heap w0) t1 = Some l
       ∧ condition_list (w_heap w0) t2 = Some l)
  ∧ (∀ t1 t2 l1 l2, t1 ∈ ts → t2 ∈ ts → t1 ≠ t2 →
       (∀ a, condition_list (w_heap w0) t1 = Some a →
             condition_list (w_heap w0) t2 ≠ Some a) →
       condition_list (m_heap m) t1 = Some l1 →
       condition_list (m_heap m) t2 = Some l2 →
       l1 ≠ l2
       ∧ ∀ ys, <[l1 := OList ys]> (m_heap m) !! l2 = m_heap m !! l2).
Proof.
  intros HL Hkeep Hgiven Htable Hinit.
  destruct (__init___heap E arg table w w0 w' ts m HL Hkeep Hgiven Htable Hinit)
    as (wa & wb & Hwa & Hrun & Hsub).
  destruct Htable as (tb & d & tl & _ & _ & _ & _ & Htidy & _).
  rewrite <- Hwa in Htidy.
  destruct (load_transitions_spec E HL ts wa Htidy)
    as (wb' & Hrun' & _ & _ & _ & Hloaded & Hshare).
  rewrite Hrun in Hrun'. injection Hrun' as <-. rewrite Hwa in Hloaded, Hshare.
  assert (Hmine : ∀ t l, t ∈ ts → condition_list (m_heap m) t = Some l →
            condition_list (w_heap wb) t = Some l).
  { intros t l Ht Hl.
    destruct (loaded_condition_list _ _ _ (Hloaded t Ht)) as (l' & Hl' & _).
    rewrite (condition_list_weaken _ _ _ _ Hsub Hl') in Hl. congruence. }
  assert (Hshared : ∀ t1 t2 l, t1 ∈ ts → t2 ∈ ts → t1 ≠ t2 →
            condition_list (m_heap m) t1 = Some l →
            condition_list (m_heap m) t2 = Some l →
            condition_list (w_heap w0) t1 = Some l
            ∧ condition_list (w_heap w0) t2 = Some l).
  { intros t1 t2 l Ht1 Ht2 Hne H1 H2.
    apply (Hshare t1 t2 l); try done; by apply Hmine. }
  split; [|split; [done|]].
  - intros t Ht.
    destruct (loaded_condition_list _ _ _ (Hloaded t Ht))
      as (l & Hl & [xs Hxs] & Hor).
    exists l, xs. split; [by apply (condition_list_weaken _ _ _ _ Hsub)|].
    split; [by apply (lookup_weaken _ _ _ _ Hxs)|done].
  - intros t1 t2 l1 l2 Ht1 Ht2 Hne Hsep H1 H2.
    assert (l1 ≠ l2) as Hl.
    { intros ->. destruct (Hshared t1 t2 l2 Ht1 Ht2 Hne H1 H2) as [E1 E2].
      by apply (Hsep l2). }
    split; [done|]. intros ys. by rewrite lookup_insert_ne.
Qed.

(** Both transitions of the table refer to the list at 3: the machine is
    built, and both still refer to it. *)
Lemma C1_counterexample : ¬ transitions_never_share.
Proof.
  intros H.
  destruct (__init__ status_env (VRef 12%positive) shared_world)
    as [m w'|e w'] eqn:Hinit; [|by vm_compute in Hinit].
  pose proof (H status_env (VRef 12%positive) (VRef 12%positive)
                shared_world shared_world w' [1%positive; 2%positive] m
                (listify_same_contract _ _ _ _) (sample_env_keeps_heap _ _ _ _)
                eq_refl shared_table_of Hinit
                1%positive 2%positive 3%positive 3%positive) as Hne.
  vm_compute in Hinit. injection Hinit as <- <-.
  apply Hne; try done.
  - by left.
  - right. by left.
Qed.

(** The simple table, in which 'get_ready' has its list and 'park' none. *)
Lemma C1_witness :
  ∃ m w',
    __init__ status_env (VRef 12%positive) simple_world = Ok m w'
    ∧ (∀ t, t ∈ [1%positive; 2%positive] →
         ∃ l xs, condition_list (m_heap m) t = Some l
                 ∧ m_heap m !! l = Some (OList (check_safety :: xs))
                 ∧ (condition_list (w_heap simple_world) t = Some l
                    ∨ w_heap simple_world !! l = None))
    ∧ (∀ t1 t2 l, t1 ∈ [1%positive; 2%positive] →
         t2 ∈ [1%positive; 2%positive] → t1 ≠ t2 →
         condition_list (m_heap m) t1 = Some l →
         condition_list (m_heap m) t2 = Some l →
         condition_list (w_heap simple_world) t1 = Some l
         ∧ condition_list (w_heap simple_world) t2 = Some l)
    ∧ (∀ t1 t2 l1 l2, t1 ∈ [1%positive; 2%positive] →
         t2 ∈ [1%positive; 2%positive] → t1 ≠ t2 →
         (∀ a, condition_list (w_heap simple_world) t1 = Some a →
               condition_list (w_heap simple_world) t2 ≠ Some a) →
         condition_list (m_heap m) t1 = Some l1 →
         condition_list (m_heap m) t2 = Some l2 →
         l1 ≠ l2
         ∧ ∀ ys, <[l1 := OList ys]> (m_heap m) !! l2 = m_heap m !! l2).
Proof.
  destruct (__init__ status_env (VRef 12%positive) simple_world)
    as [m w'|e w'] eqn:Hinit; [|by vm_compute in Hinit].
  exists m, w'. split; [reflexivity|].
  exact (C1_constructed_transitions_start_with_check_safety status_env
           (VRef 12%positive) (VRef 12%positive) simple_world simple_world w'
           [1%positive; 2%positive] m
           (listify_same_contract _ _ _ _) (sample_env_keeps_heap _ _ _ _)
           eq_refl simple_table_of Hinit).
Defined.
